(** * ColumnParser: the array column-template parser of MathJax

    A shallow embedding of [ts/input/tex/ColumnParser.ts] and the
    properties of its scan loop, its brace reader and its finalization.

    JavaScript strings are sequences of UTF-16 code units; arrays are
    sparse and grow on assignment; exceptions leave the mutations made
    so far in place.  The embedding keeps all three. *)

From Stdlib Require Import String Ascii.
From Stdlib Require Import List NArith ZArith Bool Arith Lia Sorted.
Import ListNotations.
Local Open Scope nat_scope.

(** ** Strings *)

(** A JavaScript string, as the list of its UTF-16 code units. *)
Definition str : Type := list N.

(** The code units of an ASCII literal. *)
Definition lit (s : string) : str := map N_of_ascii (list_ascii_of_string s).
Arguments lit s%_string.

Fixpoint str_eqb (a b : str) : bool :=
  match a, b with
  | [], [] => true
  | x :: a', y :: b' => N.eqb x y && str_eqb a' b'
  | _, _ => false
  end.

(** A value of type [string | undefined]: [None] is [undefined]. *)
Definition value : Type := option str.

(** [v === s] for a string [s]. *)
Definition strict_eq (v : value) (s : str) : bool :=
  match v with
  | Some a => str_eqb a s
  | None => false
  end.

(** Truthiness of a [string | undefined]: neither [undefined] nor ['']. *)
Definition truthy (v : value) : bool :=
  match v with
  | Some (_ :: _) => true
  | _ => false
  end.

(** [v || d]. *)
Definition or_else (v : value) (d : str) : str :=
  match v with
  | Some (u :: s) => u :: s
  | _ => d
  end.

(** [t[k]]: the one-unit string at [k], [undefined] out of range. *)
Definition index (t : str) (k : nat) : value :=
  option_map (fun u => [u]) (nth_error t k).

(** [t.charAt(k)]: the one-unit string at [k], [''] out of range. *)
Definition charAt (t : str) (k : nat) : str :=
  match nth_error t k with
  | Some u => [u]
  | None => []
  end.

(** [t.slice(a, b)] for non-negative [a] and [b]. *)
Definition slice (t : str) (a b : nat) : str := firstn (b - a) (skipn a t).

Definition is_high_surrogate (u : N) : bool := (55296 <=? u)%N && (u <=? 56319)%N.
Definition is_low_surrogate (u : N) : bool := (56320 <=? u)%N && (u <=? 57343)%N.

(** [String.fromCodePoint(t.codePointAt(k))]: a surrogate pair starting
    at [k] gives both units, any other unit gives itself;
    [codePointAt] is [undefined] out of range ([None]). *)
Definition codePointStr (t : str) (k : nat) : option str :=
  match nth_error t k with
  | Some hi =>
      if is_high_surrogate hi then
        match nth_error t (S k) with
        | Some lo => if is_low_surrogate lo then Some [hi; lo] else Some [hi]
        | None => Some [hi]
        end
      else Some [hi]
  | None => None
  end.

(** [s.toLowerCase()] on the letters A-Z; other code units are kept.
    No string outside ["l"], ["L"], ["c"], ["C"], ["r"], ["R"] lower-cases
    to a key of the alignment table, which is all [getAlign] asks. *)
Definition toLowerCase (s : str) : str :=
  map (fun u => if (65 <=? u)%N && (u <=? 90)%N then (u + 32)%N else u) s.

(** The string a [join] puts for an element: [''] for [undefined] and holes. *)
Definition to_s (v : value) : str :=
  match v with
  | Some s => s
  | None => []
  end.

(** [l.join(sep)]. *)
Fixpoint join (sep : str) (l : list value) : str :=
  match l with
  | [] => []
  | v :: rest =>
      match rest with
      | [] => to_s v
      | _ :: _ => to_s v ++ sep ++ join sep rest
      end
  end.

(** Own-property lookup in an object literal, given as its list of
    entries: [Some] iff [hasOwnProperty]. *)
Fixpoint own {A : Type} (name : str) (table : list (str * A)) : option A :=
  match table with
  | [] => None
  | (k, v) :: rest => if str_eqb name k then Some v else own name rest
  end.

(** Modelled from the spec: [lookup] of [util/Options.js], which is not
    among the sources: the entry of [name] in the table, [def] when the
    table has none ("anything else -> empty/unset"). *)
Definition lookup {A : Type} (name : str) (table : list (str * A)) (def : A) : A :=
  match own name table with
  | Some v => v
  | None => def
  end.

(** ** Arrays *)

(** A JavaScript array.  [elems] are the indexed slots [0 .. length-1],
    where [None] is a hole or [undefined] (spread, [join], [map] after a
    spread and truthiness do not tell them apart).  [props] holds the
    other own properties, such as the key [-1], latest first.  [writes]
    is a ghost field: the keys assigned so far, oldest first; no
    operation reads it. *)
Record JSArray (A : Type) : Type := mkArray {
  elems : list (option A);
  props : list (Z * option A);
  writes : list Z
}.
Arguments mkArray {A}.
Arguments elems {A}.
Arguments props {A}.
Arguments writes {A}.

Definition empty_array {A : Type} : JSArray A := mkArray [] [] [].

(** Assignment to slot [k] of a list of slots; slots between the old
    end and [k] become holes. *)
Fixpoint store_at {A : Type} (k : nat) (v : option A) (l : list (option A))
  : list (option A) :=
  match k, l with
  | 0, [] => [v]
  | 0, _ :: l' => v :: l'
  | S k', [] => None :: store_at k' v []
  | S k', x :: l' => x :: store_at k' v l'
  end.

(** [a[k] = v].  A negative key is an ordinary property and leaves
    [length] alone. *)
Definition aset {A : Type} (a : JSArray A) (k : Z) (v : option A) : JSArray A :=
  if (k <? 0)%Z
  then mkArray (elems a) ((k, v) :: props a) (writes a ++ [k])
  else mkArray (store_at (Z.to_nat k) v (elems a)) (props a) (writes a ++ [k]).

Fixpoint prop_of {A : Type} (k : Z) (ps : list (Z * option A)) : option A :=
  match ps with
  | [] => None
  | (k', v) :: rest => if (k =? k')%Z then v else prop_of k rest
  end.

(** [a[k]]. *)
Definition aget {A : Type} (a : JSArray A) (k : Z) : option A :=
  if (k <? 0)%Z then prop_of k (props a)
  else match nth_error (elems a) (Z.to_nat k) with
       | Some v => v
       | None => None
       end.

(** [a.length]. *)
Definition alength {A : Type} (a : JSArray A) : nat := length (elems a).

(** ** Errors *)

Inductive ErrorId : Type :=
| BadColumnCharacter
| MissingColumnDimOrUnits
| MissingArgForColumn
| MissingCloseBrace.

(** What a call can raise: a [TexError] with its id and its argument
    (the message template is fixed by the id), the [TypeError] of a
    method call on [undefined], the [RangeError] of
    [String.fromCodePoint(undefined)], or an exception of the
    dimension validator. *)
Inductive exn : Type :=
| TexError (id : ErrorId) (arg : option str)
| TypeError
| RangeError
| ValidatorError.

(** How a call ends.  [OutOfFuel] marks a loop cut by its iteration
    budget; it stands for no behaviour of the program. *)
Inductive outcome (A : Type) : Type :=
| Ok (a : A)
| Throw (e : exn)
| OutOfFuel.
Arguments Ok {A}.
Arguments Throw {A}.
Arguments OutOfFuel {A}.

(** ** The parser state and the array item *)

(** The three [TEXCLASS] tags the parser uses; the enumeration itself
    is declared in [core/MmlTree/MmlNode.ts]. *)
Inductive TEXCLASS : Type := VTOP | VCENTER | VBOX.

(** An entry of [ralign]: [[number, string, string]]. *)
Definition RowAlign : Type := (TEXCLASS * value * value)%type.

Record ColumnState : Type := mkState {
  template : str;
  i : nat;
  c : str;
  j : Z;
  calign : JSArray str;
  cwidth : JSArray str;
  clines : JSArray str;
  cstart : JSArray str;
  cend : JSArray str;
  ralign : JSArray RowAlign
}.

Definition set_i (st : ColumnState) (x : nat) : ColumnState :=
  mkState (template st) x (c st) (j st) (calign st) (cwidth st) (clines st)
          (cstart st) (cend st) (ralign st).
Definition set_c (st : ColumnState) (x : str) : ColumnState :=
  mkState (template st) (i st) x (j st) (calign st) (cwidth st) (clines st)
          (cstart st) (cend st) (ralign st).
Definition set_j (st : ColumnState) (x : Z) : ColumnState :=
  mkState (template st) (i st) (c st) x (calign st) (cwidth st) (clines st)
          (cstart st) (cend st) (ralign st).
Definition set_calign (st : ColumnState) (x : JSArray str) : ColumnState :=
  mkState (template st) (i st) (c st) (j st) x (cwidth st) (clines st)
          (cstart st) (cend st) (ralign st).
Definition set_cwidth (st : ColumnState) (x : JSArray str) : ColumnState :=
  mkState (template st) (i st) (c st) (j st) (calign st) x (clines st)
          (cstart st) (cend st) (ralign st).
Definition set_clines (st : ColumnState) (x : JSArray str) : ColumnState :=
  mkState (template st) (i st) (c st) (j st) (calign st) (cwidth st) x
          (cstart st) (cend st) (ralign st).
Definition set_cstart (st : ColumnState) (x : JSArray str) : ColumnState :=
  mkState (template st) (i st) (c st) (j st) (calign st) (cwidth st) (clines st)
          x (cend st) (ralign st).
Definition set_cend (st : ColumnState) (x : JSArray str) : ColumnState :=
  mkState (template st) (i st) (c st) (j st) (calign st) (cwidth st) (clines st)
          (cstart st) x (ralign st).
Definition set_ralign (st : ColumnState) (x : JSArray RowAlign) : ColumnState :=
  mkState (template st) (i st) (c st) (j st) (calign st) (cwidth st) (clines st)
          (cstart st) (cend st) x.

(** The fields of [arraydef] the parser assigns; [None] is a property
    not set. *)
Record ArrayDef : Type := mkDef {
  columnalign : option str;
  columnwidth : option str;
  columnlines : option str
}.

(** The part of an [ArrayItem] ([base/BaseItems.ts]) the parser touches. *)
Record ArrayItem : Type := mkItem {
  arraydef : ArrayDef;
  frame : list str;
  dashed : bool;
  item_ralign : JSArray RowAlign
}.

(** Modelled from the spec: a freshly constructed array item, whose
    class is not among the sources: nothing set in [arraydef], an empty
    [frame], [dashed] false and an empty [ralign]. *)
Definition fresh_item : ArrayItem := mkItem (mkDef None None None) [] false empty_array.

(** ** The monad of the handlers: state that survives exceptions *)

Definition M (A : Type) : Type := ColumnState -> ColumnState * outcome A.

Definition ret {A : Type} (a : A) : M A := fun st => (st, Ok a).
Definition throw {A : Type} (e : exn) : M A := fun st => (st, Throw e).
Definition bind {A B : Type} (m : M A) (k : A -> M B) : M B :=
  fun st =>
    match m st with
    | (st', Ok a) => k a st'
    | (st', Throw e) => (st', Throw e)
    | (st', OutOfFuel) => (st', OutOfFuel)
    end.
Definition get : M ColumnState := fun st => (st, Ok st).
Definition modify (f : ColumnState -> ColumnState) : M unit := fun st => (f st, Ok tt).

Declare Scope parser_scope.
Delimit Scope parser_scope with parser.
Notation "x <- m ;; k" := (bind m (fun x => k))
  (at level 61, m at next level, right associativity) : parser_scope.
Notation "m ;; k" := (bind m (fun _ => k))
  (at level 61, right associativity) : parser_scope.
Local Open Scope parser_scope.

(** A sample dimension validator for running the parser on concrete
    templates: one or more digits followed by a two-letter unit; it
    raises on [undefined], as a method call on it would. *)
Definition is_digit (u : N) : bool := (48 <=? u)%N && (u <=? 57)%N.

Fixpoint digits_then_unit (seen : bool) (s : str) : bool :=
  match s with
  | u :: s' =>
      if is_digit u then digits_then_unit true s'
      else seen && existsb (str_eqb s)
                     [lit "pt"; lit "em"; lit "ex"; lit "mu"; lit "px";
                      lit "pc"; lit "in"; lit "mm"; lit "cm"]
  | [] => false
  end.

Definition sampleDimen (v : value) : option bool :=
  match v with
  | Some s => Some (digits_then_unit false s)
  | None => None
  end.

(** ** Vocabulary of the statements *)

(** The code unit [u] is the ASCII character [a]. *)
Definition is_char (u : N) (a : ascii) : bool := N.eqb u (N_of_ascii a).

(** The code unit of a space. *)
Definition SPACE : N := N_of_ascii " ".

(** Brace matching in the words of the specification, on the text [s]
    that follows an opening brace: the depth starts at 1, a backslash
    skips the next code unit, an opening brace adds one to the depth, a
    closing brace takes one off and ends the argument when the depth
    reaches 0.  [closing depth s] is the number of code units of [s] up
    to and including that closing brace, [None] when [s] ends first. *)
Fixpoint closing (depth : nat) (s : str) : option nat :=
  match s with
  | [] => None
  | u :: s' =>
      if is_char u "\" then
        match s' with
        | [] => None
        | _ :: s'' => option_map (fun n => 2 + n) (closing depth s'')
        end
      else if is_char u "{" then option_map S (closing (S depth) s')
      else if is_char u "}" then
        match depth with
        | 0 => Some 1
        | 1 => Some 1
        | S d => option_map S (closing d s')
        end
      else option_map S (closing depth s')
  end.


(** The column-producing specifiers and the border and annotation ones. *)
Definition producing (ch : str) : bool :=
  existsb (str_eqb ch)
    [lit "l"; lit "c"; lit "r"; lit "p"; lit "m"; lit "b"; lit "w"; lit "W"].

Definition annotating (ch : str) : bool :=
  existsb (str_eqb ch)
    [lit "|"; lit ":"; lit ">"; lit "<"; lit "@"; lit "!"; lit " "].

Definition is_ok {A : Type} (o : outcome A) : bool :=
  match o with
  | Ok _ => true
  | _ => false
  end.

(** The assignments [new] of an array after a handler that saw [old]:
    none, or one at the key [k], and that only where [may] holds. *)
Definition appended (old new : list Z) (k : Z) (may : bool) : Prop :=
  new = old \/ (may = true /\ new = old ++ [k]).

(** What the handler of the specifier [ch] does to the state [st],
    ending in [st'] with outcome [o]. *)
Record handler_effect (ch : str) (st st' : ColumnState) (o : outcome unit) : Prop := {
  eff_template : template st' = template st;
  eff_c : c st' = c st;
  eff_i : i st <= i st';
  eff_fuel : o <> OutOfFuel;
  eff_throw : forall e, o = Throw e ->
    match e with
    | TexError BadColumnCharacter _ => False
    | TexError MissingArgForColumn _ => length (template st) < i st
    | RangeError => False
    | _ => True
    end;
  eff_j : j st' = if producing ch && is_ok o then (j st + 1)%Z else j st;
  eff_calign : appended (writes (calign st)) (writes (calign st')) (j st) (producing ch);
  eff_cwidth : appended (writes (cwidth st)) (writes (cwidth st')) (j st) (producing ch);
  eff_ralign : appended (writes (ralign st)) (writes (ralign st')) (j st) (producing ch)
}.

(** The assignments [all] of an array whose earlier ones were [base]:
    the new ones go to increasing keys, each once, all of them in
    [0 .. hi-1]. *)
Definition written_once (base all : list Z) (hi : Z) : Prop :=
  exists w, all = base ++ w /\ NoDup w /\ StronglySorted Z.lt w /\
            Forall (fun k => (0 <= k < hi)%Z) w.

(** The alignment keyword of a simple column specifier. *)
Definition alignment (u : N) : str :=
  lookup [u]
    [(lit "l", lit "left"); (lit "c", lit "center"); (lit "r", lit "right")]
    (lit "").

(** Two parser states that differ in [cend] at most. *)
Definition same_but_cend (st1 st2 : ColumnState) : Prop :=
  st2 = set_cend st1 (cend st2).

(** In the words of the specification: [cwidth] padded on the right
    with ['auto'] up to [n] entries. *)
Definition padded_to (widths : list value) (n : nat) : list value :=
  widths ++ repeat (Some (lit "auto")) (n - length widths).

(** The number of tokens of a space-joined attribute value whose tokens
    are not empty. *)
Definition token_count (s : str) : nat :=
  match s with
  | [] => 0
  | _ :: _ => S (count_occ N.eq_dec s SPACE)
  end.

(** ** Vocabulary of the further properties *)

(** The alignment keywords a column can get; [''] is "unset". *)
Definition alignments : list str :=
  [lit "left"; lit "center"; lit "right"; lit ""].

(** The line styles of [columnlines]. *)
Definition line_styles : list str := [lit "solid"; lit "dashed"; lit "none"].

(** The specifiers that take a width. *)
Definition wide (ch : str) : bool :=
  existsb (str_eqb ch) [lit "p"; lit "m"; lit "b"; lit "w"; lit "W"].

(** The per-column arrays in step with the column index: [calign] has
    one alignment keyword for each of the [j] columns and no hole,
    [cwidth] is no longer than [calign], [clines] is longer by one at
    most, and its slots are holes, ['solid'] or ['dashed']. *)
Definition slots_ok (st : ColumnState) : Prop :=
  j st = Z.of_nat (alength (calign st)) /\
  Forall (fun v => exists a, v = Some a /\ In a alignments) (elems (calign st)) /\
  alength (cwidth st) <= alength (calign st) /\
  alength (clines st) <= S (alength (calign st)) /\
  Forall (fun v => v = None \/ v = Some (lit "solid") \/ v = Some (lit "dashed"))
         (elems (clines st)).

(** The alignment a [w] or [W] column takes from its first argument:
    [l], [c] or [r] in either case gives the keyword, anything else
    leaves it unset. *)
Definition column_alignment (a : str) : str :=
  if str_eqb a (lit "l") || str_eqb a (lit "L") then lit "left"
  else if str_eqb a (lit "c") || str_eqb a (lit "C") then lit "center"
  else if str_eqb a (lit "r") || str_eqb a (lit "R") then lit "right"
  else lit "".

(** The number of braces left open by the text [s], read from the depth
    [d] the way the brace reader reads: a backslash hides the code unit
    after it.  [None] when a closing brace has no opening one, or the
    text ends in a lone backslash. *)
Fixpoint brace_depth (d : nat) (s : str) : option nat :=
  match s with
  | [] => Some d
  | u :: s' =>
      if is_char u "\" then
        match s' with
        | [] => None
        | _ :: s'' => brace_depth d s''
        end
      else if is_char u "{" then brace_depth (S d) s'
      else if is_char u "}" then
        match d with
        | 0 => None
        | S d' => brace_depth d' s'
        end
      else brace_depth d s'
  end.

(** Text whose braces are balanced. *)
Definition balanced (s : str) : Prop := brace_depth 0 s = Some 0.

(** The border specifiers. *)
Definition is_line (ch : str) : bool :=
  str_eqb ch (lit "|") || str_eqb ch (lit ":").

(** Of the specifiers [ds], in the order the loop dispatched them: the
    number of column-producing ones up to and including the last that
    takes a width; 0 when none takes a width. *)
Fixpoint width_span (ds : list str) : nat :=
  match ds with
  | [] => 0
  | ch :: ds' =>
      if wide ch then S (width_span ds')
      else if producing ch then
        (if 0 <? width_span ds' then S (width_span ds') else 0)
      else width_span ds'
  end.

(** One more than the number of column-producing specifiers of [ds]
    before its last border specifier; 0 when it has no border
    specifier. *)
Fixpoint line_span (ds : list str) : nat :=
  match ds with
  | [] => 0
  | ch :: ds' =>
      if producing ch then
        (if 0 <? line_span ds' then S (line_span ds') else 0)
      else if is_line ch then Nat.max 1 (line_span ds')
      else line_span ds'
  end.

(** The border at the left edge: the style of the last border specifier
    of [ds] before its first column-producing one, [cur] when there is
    none. *)
Fixpoint left_line (cur : value) (ds : list str) : value :=
  match ds with
  | [] => cur
  | ch :: ds' =>
      if producing ch then cur
      else if str_eqb ch (lit "|") then left_line (Some (lit "solid")) ds'
      else if str_eqb ch (lit ":") then left_line (Some (lit "dashed")) ds'
      else left_line cur ds'
  end.

(** [clines[0]], read as [finalize] reads it. *)
Definition first_line (st : ColumnState) : value :=
  match nth_error (elems (clines st)) 0 with
  | Some v => v
  | None => None
  end.

Section Parser.

(** [ParseUtil.matchDimen] is not among the sources.  The parser only
    tests [matchDimen(dim)[0]] for truthiness, on whatever [getBraces]
    returned: [Some b] is that truthiness, [None] is a call that raises. *)
Variable matchDimen : value -> option bool.

(** *** getBraces *)

(** [while (state.template[state.i] === ' ') state.i++;] *)
Fixpoint skipSpaces (fuel : nat) : M unit :=
  fun st =>
    if strict_eq (index (template st) (i st)) (lit " ") then
      match fuel with
      | 0 => (st, OutOfFuel)
      | S fuel' => skipSpaces fuel' (set_i st (S (i st)))
      end
    else (st, Ok tt).

(** The [while] loop of [getBraces]; [start] is its local [i]. *)
Fixpoint scanBraces (fuel : nat) (start : nat) (braces : Z) : M value :=
  fun st =>
    if i st <? length (template st) then
      match fuel with
      | 0 => (st, OutOfFuel)
      | S fuel' =>
          let ch := charAt (template st) (i st) in
          let st := set_i st (S (i st)) in
          if str_eqb ch (lit "\") then
            scanBraces fuel' start braces (set_i st (S (i st)))
          else if str_eqb ch (lit "{") then
            scanBraces fuel' start (braces + 1)%Z st
          else if str_eqb ch (lit "}") then
            if (braces - 1 =? 0)%Z
            then (st, Ok (Some (slice (template st) start (i st - 1))))
            else scanBraces fuel' start (braces - 1)%Z st
          else scanBraces fuel' start braces st
      end
    else (st, Throw (TexError MissingCloseBrace None)).

Definition getBraces : M value :=
  fun st =>
    (skipSpaces (length (template st)) ;;
     st <- get ;;
     if length (template st) <? i st then
       throw (TexError MissingArgForColumn (Some (c st)))
     else if negb (strict_eq (index (template st) (i st)) (lit "{")) then
       modify (fun st => set_i st (S (i st))) ;;
       ret (index (template st) (i st))
     else
       modify (fun st => set_i st (S (i st))) ;;
       scanBraces (length (template st)) (S (i st)) 1%Z) st.

(** *** getAlign, getDimen, getColumn *)

Definition getAlign : M str :=
  align <- getBraces ;;
  match align with
  | None => throw TypeError
  | Some a =>
      ret (lookup (toLowerCase a)
             [(lit "l", lit "left"); (lit "c", lit "center"); (lit "r", lit "right")]
             (lit ""))
  end.

Definition getDimen : M value :=
  dim <- getBraces ;;
  match matchDimen dim with
  | None => throw ValidatorError
  | Some false =>
      st <- get ;;
      throw (TexError MissingColumnDimOrUnits (Some (c st)))
  | Some true => ret dim
  end.

(** [calign] is the optional third parameter: [None] takes the default
    ['left']. *)
Definition getColumn (ralign_class : TEXCLASS) (calign_arg : option str) : M unit :=
  let calign0 := match calign_arg with Some s => s | None => lit "left" end in
  a <- (if truthy (Some calign0) then ret calign0 else getAlign) ;;
  modify (fun st => set_calign st (aset (calign st) (j st) (Some a))) ;;
  d <- getDimen ;;
  modify (fun st => set_cwidth st (aset (cwidth st) (j st) d)) ;;
  modify (fun st =>
            set_ralign st
              (aset (ralign st) (j st)
                 (Some (ralign_class, aget (cwidth st) (j st), aget (calign st) (j st))))) ;;
  modify (fun st => set_j st (j st + 1)%Z).

(** *** The handlers *)

(** [state.calign[state.j++] = align] *)
Definition alignColumn (align : str) : M unit :=
  st <- get ;;
  let k := j st in
  modify (fun st => set_j st (j st + 1)%Z) ;;
  modify (fun st => set_calign st (aset (calign st) k (Some align))).

(** [state.clines[state.j] = line] *)
Definition lineColumn (line : str) : M unit :=
  modify (fun st => set_clines st (aset (clines st) (j st) (Some line))).

Definition columnHandler : list (str * M unit) :=
  [ (lit "l", alignColumn (lit "left"));
    (lit "c", alignColumn (lit "center"));
    (lit "r", alignColumn (lit "right"));
    (lit "p", getColumn VTOP None);
    (lit "m", getColumn VCENTER None);
    (lit "b", getColumn VBOX None);
    (lit "w", getColumn VTOP (Some (lit "")));
    (lit "W", getColumn VTOP (Some (lit "")));
    (lit "|", lineColumn (lit "solid"));
    (lit ":", lineColumn (lit "dashed"));
    (lit ">", st <- get ;;
              let k := j st in
              v <- getBraces ;;
              modify (fun st => set_cstart st (aset (cstart st) k v)));
    (lit "<", st <- get ;;
              let k := (j st - 1)%Z in
              v <- getBraces ;;
              modify (fun st => set_cend st (aset (cend st) k v)));
    (lit "@", _ <- getBraces ;; ret tt);
    (lit "!", _ <- getBraces ;; ret tt);
    (lit " ", ret tt) ].

(** *** process *)

(** One turn of the [while] loop of [process]. *)
Definition step : M unit :=
  st <- get ;;
  match codePointStr (template st) (i st) with
  | None => throw RangeError
  | Some ch =>
      modify (fun st => set_c st ch) ;;
      modify (fun st => set_i st (i st + length ch)) ;;
      match own ch columnHandler with
      | None => throw (TexError BadColumnCharacter (Some ch))
      | Some handler => handler
      end
  end.

(** [while (state.i < state.template.length) { ... }] *)
Fixpoint scanLoop (fuel : nat) : M unit :=
  fun st =>
    if i st <? length (template st) then
      match fuel with
      | 0 => (st, OutOfFuel)
      | S fuel' => (step ;; scanLoop fuel') st
      end
    else (st, Ok tt).

(** The state [process] starts from; [ralign] is the array's own. *)
Definition initState (t : str) (array : ArrayItem) : ColumnState :=
  mkState t 0 (lit "") 0%Z empty_array empty_array empty_array
          empty_array empty_array (item_ralign array).

(** The second half of [process]: what it assigns to the array item
    once the loop has ended, from the final state of the loop. *)
Definition finalize (st : ColumnState) (array : ArrayItem) : ArrayItem :=
  let ncalign := alength (calign st) in
  (* array.arraydef.columnalign = calign.join(' ') *)
  let def1 :=
    mkDef (Some (join (lit " ") (elems (calign st))))
          (columnwidth (arraydef array)) (columnlines (arraydef array)) in
  (* if (state.cwidth.length) ... *)
  let def2 :=
    if 0 <? alength (cwidth st) then
      let cwidth0 := elems (cwidth st) in
      let cwidth1 :=
        if length cwidth0 <? ncalign
        then cwidth0 ++ [Some (lit "auto")] else cwidth0 in
      let widths := map (fun w => Some (or_else w (lit "auto"))) cwidth1 in
      mkDef (columnalign def1) (Some (join (lit " ") widths)) (columnlines def1)
    else def1 in
  (* if (state.clines.length) ... *)
  if 0 <? alength (clines st) then
    let clines0 := elems (clines st) in
    let first := match nth_error clines0 0 with Some v => v | None => None end in
    let frame1 := if truthy first then frame array ++ [lit "left"] else frame array in
    let dashed1 := if truthy first then strict_eq first (lit "dashed") else dashed array in
    let frame2 :=
      if ncalign <? length clines0 then frame1 ++ [lit "right"] else frame1 in
    let clines1 :=
      if ncalign <? length clines0 then removelast clines0
      else if length clines0 <? ncalign then clines0 ++ [Some (lit "none")]
      else clines0 in
    let lines := map (fun l => Some (or_else l (lit "none"))) (skipn 1 clines1) in
    mkItem (mkDef (columnalign def2) (columnwidth def2) (Some (join (lit " ") lines)))
           frame2 dashed1 (ralign st)
  else mkItem def2 (frame array) (dashed array) (ralign st).

(** The first half of [process]: the initial state and the loop. *)
Definition scan (t : str) (array : ArrayItem) : ColumnState * outcome unit :=
  scanLoop (length t) (initState t array).

(** [process(template, array)]: the array item as the call leaves it and
    how the call ends.  [state.ralign] is [array.ralign] itself, so
    what the handlers stored there stays when the call raises. *)
Definition process (t : str) (array : ArrayItem) : ArrayItem * outcome unit :=
  match scan t array with
  | (st, Ok _) => (finalize st array, Ok tt)
  | (st, Throw e) =>
      (mkItem (arraydef array) (frame array) (dashed array) (ralign st), Throw e)
  | (st, OutOfFuel) =>
      (mkItem (arraydef array) (frame array) (dashed array) (ralign st), OutOfFuel)
  end.

(** The specifiers the loop of [process] dispatches from [st] on, in
    order. *)
Fixpoint dispatched (fuel : nat) (st : ColumnState) : list str :=
  if i st <? length (template st) then
    match fuel with
    | 0 => []
    | S fuel' =>
        match codePointStr (template st) (i st) with
        | Some ch =>
            ch :: match step st with
                  | (st', Ok _) => dispatched fuel' st'
                  | _ => []
                  end
        | None => []
        end
    end
  else [].

(** The number of column-producing specifiers the loop of [process]
    dispatches on the template [t]. *)
Definition columns (t : str) (array : ArrayItem) : nat :=
  length (filter producing (dispatched (length t) (initState t array))).

(** ** Strings and slots *)

Lemma str_eqb_eq (a b : str) : str_eqb a b = true <-> a = b.
Proof.
  revert b; induction a as [|x a IH]; intros [|y b]; simpl; split; try easy.
  - rewrite andb_true_iff, N.eqb_eq, IH. now intros [-> ->].
  - intros [= -> ->]. rewrite andb_true_iff, N.eqb_eq, IH. auto.
Qed.

Lemma str_eqb_refl (a : str) : str_eqb a a = true.
Proof. now apply str_eqb_eq. Qed.

Lemma str_eqb_unit (u : N) (a : ascii) :
  str_eqb [u] (lit (String a EmptyString)) = is_char u a.
Proof. unfold is_char. cbn [lit list_ascii_of_string map str_eqb]. apply andb_true_r. Qed.

Lemma nth_error_cursor {A : Type} (pre : list A) (u : A) (s : list A) :
  nth_error (pre ++ u :: s) (length pre) = Some u.
Proof. rewrite nth_error_app2, Nat.sub_diag by lia. reflexivity. Qed.

Lemma nth_error_end {A : Type} (pre : list A) :
  nth_error pre (length pre) = None.
Proof. apply nth_error_None. lia. Qed.

Lemma cursor_split (t : str) (k : nat) (s : str) :
  skipn k t = s -> s <> [] -> t = firstn k t ++ s /\ length (firstn k t) = k.
Proof.
  intros E Hs. split.
  - rewrite <- E. symmetry. apply firstn_skipn.
  - apply firstn_length_le.
    destruct (Nat.le_gt_cases k (length t)) as [|Hlt]; [assumption|].
    rewrite skipn_all2 in E by lia. congruence.
Qed.

Lemma store_at_end {A : Type} (v : option A) (l : list (option A)) :
  store_at (length l) v l = l ++ [v].
Proof. induction l as [|x l IH]; simpl; [reflexivity | now rewrite IH]. Qed.

Lemma store_at_same {A : Type} (k : nat) (v : option A) (l : list (option A)) :
  nth_error (store_at k v l) k = Some v.
Proof.
  revert l; induction k as [|k IH]; intros [|x l]; simpl; try reflexivity; apply IH.
Qed.

Lemma aget_aset_same {A : Type} (a : JSArray A) (k : Z) (v : option A) :
  aget (aset a k v) k = v.
Proof.
  unfold aget, aset. destruct (k <? 0)%Z eqn:E; simpl.
  - now rewrite Z.eqb_refl.
  - now rewrite store_at_same.
Qed.

Lemma writes_aset {A : Type} (a : JSArray A) (k : Z) (v : option A) :
  writes (aset a k v) = writes a ++ [k].
Proof. unfold aset. now destruct (k <? 0)%Z. Qed.

(** ** The state setters *)

Lemma set_i_same (st : ColumnState) : set_i st (i st) = st.
Proof. now destruct st. Qed.

Lemma set_i_set_i (st : ColumnState) (a b : nat) :
  set_i (set_i st a) b = set_i st b.
Proof. reflexivity. Qed.

(** ** The loops of getBraces, one turn at a time *)

Lemma skipSpaces_eq (fuel : nat) (st : ColumnState) :
  skipSpaces fuel st =
  if strict_eq (index (template st) (i st)) (lit " ") then
    match fuel with
    | 0 => (st, OutOfFuel)
    | S fuel' => skipSpaces fuel' (set_i st (S (i st)))
    end
  else (st, Ok tt).
Proof. now destruct fuel. Qed.

Lemma scanBraces_eq (fuel start : nat) (braces : Z) (st : ColumnState) :
  scanBraces fuel start braces st =
  if i st <? length (template st) then
    match fuel with
    | 0 => (st, OutOfFuel)
    | S fuel' =>
        let ch := charAt (template st) (i st) in
        let st := set_i st (S (i st)) in
        if str_eqb ch (lit "\") then
          scanBraces fuel' start braces (set_i st (S (i st)))
        else if str_eqb ch (lit "{") then
          scanBraces fuel' start (braces + 1)%Z st
        else if str_eqb ch (lit "}") then
          if (braces - 1 =? 0)%Z
          then (st, Ok (Some (slice (template st) start (i st - 1))))
          else scanBraces fuel' start (braces - 1)%Z st
        else scanBraces fuel' start braces st
    end
  else (st, Throw (TexError MissingCloseBrace None)).
Proof. now destruct fuel. Qed.

Lemma index_in_range (t : str) (k : nat) (s : str) :
  strict_eq (index t k) s = true -> k < length t.
Proof.
  unfold index. destruct (nth_error t k) eqn:E; simpl; [|discriminate].
  intros _. apply nth_error_Some. congruence.
Qed.

(** *** Only the cursor moves, and it moves by the template alone *)

Lemma skipSpaces_shape (fuel : nat) (st1 st2 : ColumnState) :
  template st1 = template st2 -> i st1 = i st2 ->
  exists k o, skipSpaces fuel st1 = (set_i st1 k, o) /\
              skipSpaces fuel st2 = (set_i st2 k, o).
Proof.
  revert st1 st2; induction fuel as [|fuel IH]; intros st1 st2 Ht Hi;
    rewrite (skipSpaces_eq _ st1), (skipSpaces_eq _ st2), <- Ht, <- Hi;
    destruct (strict_eq _ _).
  - exists (i st1), OutOfFuel. rewrite set_i_same, Hi, set_i_same. auto.
  - exists (i st1), (Ok tt). rewrite set_i_same, Hi, set_i_same. auto.
  - destruct (IH (set_i st1 (S (i st1))) (set_i st2 (S (i st1))) Ht eq_refl)
      as (k & o & E1 & E2).
    exists k, o. rewrite E1, E2. auto.
  - exists (i st1), (Ok tt). rewrite set_i_same, Hi, set_i_same. auto.
Qed.

Lemma scanBraces_shape (fuel start : nat) (braces : Z) (st1 st2 : ColumnState) :
  template st1 = template st2 -> i st1 = i st2 ->
  exists k o, scanBraces fuel start braces st1 = (set_i st1 k, o) /\
              scanBraces fuel start braces st2 = (set_i st2 k, o).
Proof.
  revert braces st1 st2; induction fuel as [|fuel IH]; intros braces st1 st2 Ht Hi;
    rewrite (scanBraces_eq _ _ _ st1), (scanBraces_eq _ _ _ st2), <- Ht, <- Hi;
    destruct (i st1 <? length (template st1)).
  - exists (i st1), OutOfFuel. rewrite set_i_same, Hi, set_i_same. auto.
  - eexists (i st1), _. rewrite set_i_same, Hi, set_i_same. auto.
  - cbn zeta. cbn [template i set_i].
    assert (Hrec : forall b x,
      exists k o, scanBraces fuel start b (set_i st1 x) = (set_i st1 k, o) /\
                  scanBraces fuel start b (set_i st2 x) = (set_i st2 k, o)).
    { intros b x.
      destruct (IH b (set_i st1 x) (set_i st2 x) Ht eq_refl) as (k & o & E1 & E2).
      exists k, o. rewrite E1, E2. auto. }
    destruct (str_eqb _ (lit "\")); [apply Hrec|].
    destruct (str_eqb _ (lit "{")); [apply Hrec|].
    destruct (str_eqb _ (lit "}")); [|apply Hrec].
    destruct (braces - 1 =? 0)%Z; [|apply Hrec].
    eexists (S (i st1)), _. rewrite <- Ht. auto.
  - eexists (i st1), _. rewrite set_i_same, Hi, set_i_same. auto.
Qed.

Lemma getBraces_eq (st : ColumnState) :
  getBraces st =
  match skipSpaces (length (template st)) st with
  | (st1, Ok _) =>
      if length (template st1) <? i st1 then
        (st1, Throw (TexError MissingArgForColumn (Some (c st1))))
      else if negb (strict_eq (index (template st1) (i st1)) (lit "{")) then
        (set_i st1 (S (i st1)), Ok (index (template st1) (i st1)))
      else
        scanBraces (length (template st1)) (S (i st1)) 1 (set_i st1 (S (i st1)))
  | (st1, Throw e) => (st1, Throw e)
  | (st1, OutOfFuel) => (st1, OutOfFuel)
  end.
Proof.
  unfold getBraces, bind, get, modify, ret, throw.
  destruct (skipSpaces _ st) as [st1 [[]|e|]]; try reflexivity.
  destruct (_ <? _); [reflexivity|]. now destruct (negb _).
Qed.

Lemma getBraces_shape (st1 st2 : ColumnState) :
  template st1 = template st2 -> i st1 = i st2 -> c st1 = c st2 ->
  exists k o, getBraces st1 = (set_i st1 k, o) /\
              getBraces st2 = (set_i st2 k, o).
Proof.
  intros Ht Hi Hc. rewrite !getBraces_eq, <- Ht.
  destruct (skipSpaces_shape (length (template st1)) st1 st2 Ht Hi)
    as (k & o & -> & ->).
  destruct o as [[]|e|]; [|eexists k, _; eauto ..].
  cbn [template i c set_i]. rewrite <- Ht, <- Hc.
  destruct (length (template st1) <? k); [eexists k, _; eauto|].
  destruct (negb _); [eexists (S k), _; eauto|].
  destruct (scanBraces_shape (length (template st1)) (S k) 1
              (set_i st1 (S k)) (set_i st2 (S k)) Ht eq_refl) as (k' & o' & E1 & E2).
  exists k', o'. split; [exact E1 | exact E2].
Qed.

Lemma getBraces_cursor (st : ColumnState) :
  exists k o, getBraces st = (set_i st k, o).
Proof.
  destruct (getBraces_shape st st eq_refl eq_refl eq_refl) as (k & o & E & _).
  eauto.
Qed.

Lemma skipSpaces_only_i (fuel : nat) (st st' : ColumnState) (o : outcome unit) :
  skipSpaces fuel st = (st', o) -> st' = set_i st (i st').
Proof.
  destruct (skipSpaces_shape fuel st st eq_refl eq_refl) as (k & o' & E & _).
  rewrite E. now intros [= <- _].
Qed.

Lemma scanBraces_only_i (fuel start : nat) (braces : Z)
      (st st' : ColumnState) (o : outcome value) :
  scanBraces fuel start braces st = (st', o) -> st' = set_i st (i st').
Proof.
  destruct (scanBraces_shape fuel start braces st st eq_refl eq_refl)
    as (k & o' & E & _).
  rewrite E. now intros [= <- _].
Qed.

Lemma getBraces_only_i (st st' : ColumnState) (o : outcome value) :
  getBraces st = (st', o) -> st' = set_i st (i st').
Proof.
  destruct (getBraces_cursor st) as (k & o' & E).
  rewrite E. now intros [= <- _].
Qed.

(** *** The cursor only advances, and the loops end within their budget *)

Lemma skipSpaces_props (fuel : nat) (st st' : ColumnState) (o : outcome unit) :
  skipSpaces fuel st = (st', o) ->
  i st <= i st' /\
  (length (template st) - i st <= fuel -> o = Ok tt) /\
  (i st <= length (template st) -> i st' <= length (template st)) /\
  (o = Ok tt -> strict_eq (index (template st) (i st')) (lit " ") = false).
Proof.
  revert st; induction fuel as [|fuel IH]; intros st; rewrite skipSpaces_eq;
    destruct (strict_eq _ _) eqn:E.
  - apply index_in_range in E. intros [= <- <-]. repeat split; try easy; lia.
  - intros [= <- <-]. repeat split; auto.
  - apply index_in_range in E. intros H. apply IH in H.
    cbn [template i set_i] in H. destruct H as (H1 & H2 & H3 & H4).
    repeat split; try lia; auto. intros. apply H2. lia.
  - intros [= <- <-]. repeat split; auto.
Qed.

Lemma scanBraces_props (fuel start : nat) (braces : Z)
      (st st' : ColumnState) (o : outcome value) :
  scanBraces fuel start braces st = (st', o) ->
  i st <= i st' /\
  (length (template st) - i st <= fuel -> o <> OutOfFuel) /\
  (forall e, o = Throw e -> e = TexError MissingCloseBrace None) /\
  (forall v, o = Ok v ->
     v <> None /\ i st < i st' /\ i st' <= length (template st)).
Proof.
  revert braces st; induction fuel as [|fuel IH]; intros braces st;
    rewrite scanBraces_eq; destruct (i st <? length (template st)) eqn:Hlt;
    [apply Nat.ltb_lt in Hlt | | apply Nat.ltb_lt in Hlt | ];
    try (intros [= <- <-]; repeat split; try easy; try congruence; lia).
  cbn zeta. cbn [template i set_i].
  assert (Hrec : forall b x, i st < x -> x <= S (S (i st)) ->
    scanBraces fuel start b (set_i st x) = (st', o) ->
    i st <= i st' /\
    (length (template st) - i st <= S fuel -> o <> OutOfFuel) /\
    (forall e, o = Throw e -> e = TexError MissingCloseBrace None) /\
    (forall v, o = Ok v ->
       v <> None /\ i st < i st' /\ i st' <= length (template st))).
  { intros b x Hx Hx' H. apply IH in H. cbn [template i set_i] in H.
    destruct H as (H1 & H2 & H3 & H4).
    split; [lia|]. split; [intros; apply H2; lia|]. split; [exact H3|].
    intros v Hv. apply H4 in Hv. split; [tauto | lia]. }
  destruct (str_eqb _ (lit "\")); [apply Hrec; lia|].
  destruct (str_eqb _ (lit "{")); [apply Hrec; lia|].
  destruct (str_eqb _ (lit "}")); [|apply Hrec; lia].
  destruct (braces - 1 =? 0)%Z; [|apply Hrec; lia].
  intros [= <- <-]. cbn [template i set_i].
  repeat split; try easy; try congruence; try lia.
Qed.

Lemma getBraces_props (st st' : ColumnState) (o : outcome value) :
  getBraces st = (st', o) ->
  i st <= i st' /\
  o <> OutOfFuel /\
  (forall e, o = Throw e ->
     e = TexError MissingCloseBrace None \/
     (e = TexError MissingArgForColumn (Some (c st)) /\
      length (template st) < i st)) /\
  (forall v, o = Ok v -> i st < i st' /\ i st <= length (template st)) /\
  (forall s, o = Ok (Some s) -> i st' <= length (template st)).
Proof.
  rewrite getBraces_eq.
  destruct (skipSpaces _ st) as [st1 o1] eqn:E1.
  pose proof (skipSpaces_only_i _ _ _ _ E1) as S1.
  apply skipSpaces_props in E1. destruct E1 as (A1 & A2 & A3 & A4).
  rewrite (A2 ltac:(lia)). rewrite S1. cbn [template i c set_i].
  destruct (length (template st) <? i st1) eqn:Hlt.
  { apply Nat.ltb_lt in Hlt. intros [= <- <-]. cbn [template i c set_i].
    repeat split; try easy.
    intros e [= <-]. right. split; [reflexivity | lia]. }
  apply Nat.ltb_ge in Hlt.
  destruct (negb _) eqn:Hb.
  { intros [= <- <-]. cbn [template i c set_i].
    repeat split; try easy; try lia.
    intros s [= E]. unfold index in E.
    destruct (nth_error (template st) (i st1)) eqn:En; [|discriminate].
    assert (i st1 < length (template st)) by (apply nth_error_Some; congruence).
    lia. }
  intros H. apply scanBraces_props in H. cbn [template i c set_i] in H.
  destruct H as (B1 & B2 & B3 & B4).
  split; [lia|]. split; [apply B2; lia|].
  split; [intros e He; left; now apply B3|].
  split; [intros v Hv; apply B4 in Hv; lia|].
  intros s Hs. apply B4 in Hs. lia.
Qed.

(** ** The handlers *)

Lemma own_In {A : Type} (name : str) (table : list (str * A)) (v : A) :
  own name table = Some v -> In (name, v) table.
Proof.
  induction table as [|[k w] table IH]; simpl; [discriminate|].
  destruct (str_eqb name k) eqn:E.
  - apply str_eqb_eq in E. intros [= ->]. left. now subst.
  - intros H. right. now apply IH.
Qed.

Ltac sp :=
  cbn [template i c j calign cwidth clines cstart cend ralign
       set_i set_c set_j set_calign set_cwidth set_clines set_cstart
       set_cend set_ralign fst snd] in *.

Ltac run_getBraces :=
  match goal with
  | |- context [getBraces ?s] =>
      let G := fresh "G" in
      let st1 := fresh "st" in
      let o1 := fresh "o" in
      destruct (getBraces s) as [st1 o1] eqn:G;
      let S1 := fresh "S" in
      pose proof (getBraces_only_i _ _ _ G) as S1;
      apply getBraces_props in G; sp;
      rewrite S1 in *; clear S1; sp
  end.

Ltac unfold_handler :=
  unfold alignColumn, lineColumn, getColumn, getDimen, getAlign,
         bind, get, modify, ret, throw;
  change (truthy (Some (lit ""))) with false;
  change (truthy (Some (lit "left"))) with true;
  cbv iota; sp.

Ltac split_run :=
  repeat first
    [ run_getBraces
    | match goal with
      | |- context [match ?o with Ok _ => _ | Throw _ => _ | OutOfFuel => _ end] =>
          destruct o; sp
      | |- context [match ?v with Some _ => _ | None => _ end] =>
          destruct v; sp
      | |- context [if ?b then _ else _] => destruct b; sp
      end ].

Ltac use_props :=
  repeat match goal with
         | H : _ /\ _ |- _ => destruct H
         | H : forall s0, Ok (Some ?s) = Ok (Some s0) -> _ |- _ =>
             specialize (H _ eq_refl)
         | H : forall v, Ok ?x = Ok v -> _ |- _ => specialize (H _ eq_refl)
         end.

Ltac eff_done :=
  use_props;
  constructor; sp; rewrite ?writes_aset; unfold appended;
  try reflexivity; try lia; try congruence; auto;
  try (intros ? [= <-]; exact I);
  try match goal with
      | H : forall e0, Throw ?e = Throw e0 -> _ |- forall e1, Throw ?e = Throw e1 -> _ =>
          let E := fresh in
          intros ? E; injection E as <-;
          destruct (H _ eq_refl) as [->|[-> ?]]; [exact I | sp; try lia]
      end.

Lemma columnHandler_effect (ch : str) (h : M unit) (st : ColumnState) :
  own ch columnHandler = Some h ->
  handler_effect ch st (fst (h st)) (snd (h st)).
Proof.
  intros H. apply own_In in H. unfold columnHandler in H.
  repeat (destruct H as [H|H]; [injection H as <- <-|]); try contradiction.
  all: unfold_handler; split_run; eff_done.
Qed.

(** ** One turn of the loop of process *)

Lemma codePointStr_in_range (t : str) (k : nat) :
  k < length t ->
  exists ch, codePointStr t k = Some ch /\
             1 <= length ch /\ k + length ch <= length t.
Proof.
  intros Hk. unfold codePointStr.
  destruct (nth_error t k) as [hi|] eqn:E; [|apply nth_error_None in E; lia].
  destruct (is_high_surrogate hi); [|exists [hi]; simpl; split; [easy|lia]].
  destruct (nth_error t (S k)) as [lo|] eqn:E'; [|exists [hi]; simpl; split; [easy|lia]].
  assert (S k < length t) by (apply nth_error_Some; congruence).
  destruct (is_low_surrogate lo); eexists; (split; [reflexivity|simpl; lia]).
Qed.

Lemma step_eq (st : ColumnState) :
  step st =
  match codePointStr (template st) (i st) with
  | None => (st, Throw RangeError)
  | Some ch =>
      let st1 := set_i (set_c st ch) (i st + length ch) in
      match own ch columnHandler with
      | None => (st1, Throw (TexError BadColumnCharacter (Some ch)))
      | Some handler => handler st1
      end
  end.
Proof.
  unfold step, bind, get, modify, throw.
  destruct (codePointStr _ _); [|reflexivity]. now destruct (own _ _).
Qed.

Lemma scanLoop_eq (fuel : nat) (st : ColumnState) :
  scanLoop fuel st =
  if i st <? length (template st) then
    match fuel with
    | 0 => (st, OutOfFuel)
    | S fuel' =>
        match step st with
        | (st', Ok _) => scanLoop fuel' st'
        | (st', Throw e) => (st', Throw e)
        | (st', OutOfFuel) => (st', OutOfFuel)
        end
    end
  else (st, Ok tt).
Proof. now destruct fuel. Qed.

(** *** Invariants of the loop *)

Section LoopInvariant.

Variable Inv : ColumnState -> Prop.
Variable Post : ColumnState -> outcome unit -> Prop.

Hypothesis at_end : forall st,
  Inv st -> length (template st) <= i st -> Post st (Ok tt).

Hypothesis at_unknown : forall st ch,
  Inv st -> i st < length (template st) ->
  codePointStr (template st) (i st) = Some ch ->
  own ch columnHandler = None ->
  Post (set_i (set_c st ch) (i st + length ch))
       (Throw (TexError BadColumnCharacter (Some ch))).

Hypothesis at_handler : forall st ch handler st' o,
  Inv st -> i st < length (template st) ->
  codePointStr (template st) (i st) = Some ch ->
  i st + length ch <= length (template st) ->
  own ch columnHandler = Some handler ->
  handler (set_i (set_c st ch) (i st + length ch)) = (st', o) ->
  handler_effect ch (set_i (set_c st ch) (i st + length ch)) st' o ->
  match o with
  | Ok _ => Inv st'
  | Throw e => Post st' (Throw e)
  | OutOfFuel => True
  end.

Lemma scanLoop_inv (fuel : nat) (st : ColumnState) :
  Inv st -> length (template st) - i st <= fuel ->
  Post (fst (scanLoop fuel st)) (snd (scanLoop fuel st)).
Proof.
  revert st; induction fuel as [|fuel IH]; intros st HI Hf;
    rewrite scanLoop_eq; destruct (Nat.ltb_spec (i st) (length (template st))) as [Hlt|Hlt];
    try (apply at_end; assumption); [lia|].
  rewrite step_eq.
  destruct (codePointStr_in_range _ _ Hlt) as (ch & Hch & Hc1 & Hc2).
  rewrite Hch. cbn zeta. destruct (own ch columnHandler) as [handler|] eqn:Ho.
  - pose proof (columnHandler_effect ch handler
                  (set_i (set_c st ch) (i st + length ch)) Ho) as He.
    destruct (handler _) as [st' o] eqn:Eh. cbn [fst snd] in He.
    pose proof (at_handler st ch handler st' o HI Hlt Hch Hc2 Ho Eh He) as Hstep.
    destruct o as [[]|e|].
    + apply IH; [assumption|].
      destruct He as [Ht _ Hi _ _ _ _ _ _]. sp. rewrite Ht. lia.
    + exact Hstep.
    + now destruct He.
  - now apply at_unknown.
Qed.

End LoopInvariant.

(** ** The registered specifiers *)

Lemma own_columnHandler_registered (ch : str) :
  own ch columnHandler <> None <-> producing ch || annotating ch = true.
Proof.
  unfold columnHandler, producing, annotating. cbn [own existsb].
  repeat (destruct (str_eqb ch _); [cbn [orb]; rewrite ?orb_true_r; split; easy|]).
  cbn [orb]. split; [congruence | discriminate].
Qed.

Lemma own_columnHandler_None (ch : str) :
  own ch columnHandler = None <-> producing ch || annotating ch = false.
Proof.
  pose proof (own_columnHandler_registered ch) as H.
  destruct (own ch columnHandler), (producing ch || annotating ch);
    split; try easy; intros _.
  - exfalso. assert (Some m <> None) by discriminate. apply H in H0. discriminate.
  - exfalso. now apply H.
Qed.

(** ** Termination *)

Lemma scanBraces_fuel (fuel1 fuel2 start : nat) (braces : Z) (st : ColumnState) :
  length (template st) - i st <= fuel1 ->
  length (template st) - i st <= fuel2 ->
  scanBraces fuel1 start braces st = scanBraces fuel2 start braces st.
Proof.
  revert fuel2 braces st; induction fuel1 as [|fuel1 IH];
    intros fuel2 braces st H1 H2;
    rewrite (scanBraces_eq _ _ _ st), (scanBraces_eq fuel2 _ _ st);
    destruct (Nat.ltb_spec (i st) (length (template st))) as [Hlt|Hlt];
    try reflexivity; [lia|].
  destruct fuel2 as [|fuel2]; [lia|]. cbn zeta.
  repeat match goal with
         | |- context [if ?b then _ else _] => destruct b
         end;
    try reflexivity; apply IH; cbn [template i set_i]; lia.
Qed.

Lemma scanLoop_fuel (fuel1 fuel2 : nat) (st : ColumnState) :
  length (template st) - i st <= fuel1 ->
  length (template st) - i st <= fuel2 ->
  scanLoop fuel1 st = scanLoop fuel2 st.
Proof.
  revert fuel2 st; induction fuel1 as [|fuel1 IH]; intros fuel2 st H1 H2;
    rewrite (scanLoop_eq _ st), (scanLoop_eq fuel2 st);
    destruct (Nat.ltb_spec (i st) (length (template st))) as [Hlt|Hlt];
    try reflexivity; [lia|].
  destruct fuel2 as [|fuel2]; [lia|].
  destruct (step st) as [st' o] eqn:Es. destruct o as [[]|e|]; try reflexivity.
  rewrite step_eq in Es.
  destruct (codePointStr_in_range _ _ Hlt) as (ch & Hch & Hc1 & Hc2).
  rewrite Hch in Es. cbn zeta in Es.
  destruct (own ch columnHandler) as [handler|] eqn:Ho; [|discriminate].
  pose proof (columnHandler_effect ch handler
                (set_i (set_c st ch) (i st + length ch)) Ho) as He.
  rewrite Es in He. destruct He as [Ht _ Hi _ _ _ _ _ _]. sp.
  apply IH; rewrite Ht; lia.
Qed.

Lemma scanLoop_no_OutOfFuel (fuel : nat) (st : ColumnState) :
  length (template st) - i st <= fuel ->
  snd (scanLoop fuel st) <> OutOfFuel.
Proof.
  apply (scanLoop_inv (fun _ => True) (fun _ o => o <> OutOfFuel));
    try easy.
  intros st0 ch handler st' o _ _ _ _ _ _ _. now destruct o.
Qed.

Lemma step_advances (st : ColumnState) :
  i st < length (template st) ->
  template (fst (step st)) = template st /\
  i st < i (fst (step st)) /\
  snd (step st) <> OutOfFuel.
Proof.
  intros Hlt. rewrite step_eq.
  destruct (codePointStr_in_range _ _ Hlt) as (ch & Hch & Hc1 & Hc2).
  rewrite Hch. cbn zeta.
  destruct (own ch columnHandler) as [handler|] eqn:Ho.
  - destruct (columnHandler_effect ch handler
                (set_i (set_c st ch) (i st + length ch)) Ho)
      as [Ht _ Hi Hf _ _ _ _ _]. sp.
    repeat split; [assumption | lia | assumption].
  - sp. repeat split; [lia | discriminate].
Qed.

(** ** MissingArgForColumn is out of reach *)

Lemma scanLoop_no_MissingArg (fuel : nat) (st : ColumnState) (arg : option str) :
  length (template st) - i st <= fuel ->
  snd (scanLoop fuel st) <> Throw (TexError MissingArgForColumn arg).
Proof.
  apply (scanLoop_inv (fun _ => True)
           (fun _ o => o <> Throw (TexError MissingArgForColumn arg)));
    try easy.
  intros st0 ch handler st' o _ _ _ Hc2 _ _ He.
  destruct o as [[]|e|]; [exact I | | exact I].
  intros [= ->]. destruct He as [_ _ _ _ Hthrow _ _ _ _].
  specialize (Hthrow _ eq_refl). sp. lia.
Qed.

(** ** BadColumnCharacter *)

Lemma scanLoop_BadColumnCharacter (fuel : nat) (st : ColumnState) (arg : option str) :
  length (template st) - i st <= fuel ->
  snd (scanLoop fuel st) = Throw (TexError BadColumnCharacter arg) ->
  exists ch, arg = Some ch /\ own ch columnHandler = None.
Proof.
  apply (scanLoop_inv (fun _ => True)
           (fun _ o => o = Throw (TexError BadColumnCharacter arg) ->
                       exists ch, arg = Some ch /\ own ch columnHandler = None));
    try easy.
  - intros st0 ch _ _ _ Ho [= <-]. eauto.
  - intros st0 ch handler st' o _ _ _ _ _ _ He.
    destruct o as [[]|e|]; [exact I | | exact I].
    intros [= ->]. destruct He as [_ _ _ _ Hthrow _ _ _ _].
    now specialize (Hthrow _ eq_refl).
Qed.

Lemma process_outcome (t : str) (array : ArrayItem) :
  snd (process t array) = snd (scan t array).
Proof.
  unfold process. now destruct (scan t array) as [st [[]|e|]].
Qed.

(** ** The claims on errors and termination *)

(** C3.  An argument-requiring specifier at the very end of the template
    does not make [process] signal [MissingArgForColumn]: the test
    [state.i > state.template.length] of [getBraces] never holds, so no
    template at all gives that error.  On ["p"] the reader returns
    [undefined], and the call ends as the dimension validator decides
    on [undefined]. *)
Theorem MissingArgForColumn_unreachable :
  (forall t array arg,
     snd (process t array) <> Throw (TexError MissingArgForColumn arg)) /\
  (forall array,
     snd (process (lit "p") array) =
     match matchDimen None with
     | Some true => Ok tt
     | Some false => Throw (TexError MissingColumnDimOrUnits (Some (lit "p")))
     | None => Throw ValidatorError
     end).
Proof.
  split.
  - intros t array arg. rewrite process_outcome.
    apply scanLoop_no_MissingArg. cbn. lia.
  - intros array. rewrite process_outcome. vm_compute.
    now destruct (matchDimen None) as [[]|].
Qed.

Lemma scanLoop_unregistered (fuel : nat) :
  forall st ch,
    In ch (dispatched fuel st) ->
    own ch columnHandler = None ->
    snd (scanLoop fuel st) = Throw (TexError BadColumnCharacter (Some ch)).
Proof.
  induction fuel as [|fuel IH]; intros st ch Hin Ho.
  - cbn [dispatched] in Hin.
    destruct (i st <? length (template st)); contradiction.
  - rewrite scanLoop_eq. cbn [dispatched] in Hin.
    destruct (i st <? length (template st)); [|contradiction].
    destruct (codePointStr (template st) (i st)) as [ch0|] eqn:Hch;
      [|contradiction].
    destruct Hin as [->|Hin].
    + rewrite step_eq, Hch. cbn zeta. now rewrite Ho.
    + destruct (step st) as [st' [[]|e|]]; try contradiction. now apply IH.
Qed.

Lemma process_raises (t : str) (array : ArrayItem) (e : exn) :
  snd (process t array) = Throw e ->
  arraydef (fst (process t array)) = arraydef array /\
  frame (fst (process t array)) = frame array /\
  dashed (fst (process t array)) = dashed array.
Proof.
  unfold process. destruct (scan t array) as [st [[]|e'|]];
    cbn [fst snd]; try discriminate.
  intros _. cbn. auto.
Qed.

(** C7.  A character read by the loop that has no entry in the action
    table ends [process] at once with [BadColumnCharacter] naming it,
    and [process] signals [BadColumnCharacter] for no character that
    has an entry; the entries are the fifteen specifiers.  For
    [process] itself: when the first character of the template, or any
    character that the loop comes to dispatch, has no entry, the call
    raises [BadColumnCharacter] naming that character, and none of the
    attributes of the array is assigned. *)
Theorem BadColumnCharacter_unregistered :
  (forall fuel st ch,
     i st < length (template st) ->
     codePointStr (template st) (i st) = Some ch ->
     own ch columnHandler = None ->
     scanLoop (S fuel) st =
     (set_i (set_c st ch) (i st + length ch),
      Throw (TexError BadColumnCharacter (Some ch)))) /\
  (forall t array arg,
     snd (process t array) = Throw (TexError BadColumnCharacter arg) ->
     exists ch, arg = Some ch /\ own ch columnHandler = None) /\
  (forall ch,
     own ch columnHandler = None <-> producing ch || annotating ch = false) /\
  (forall t array ch,
     codePointStr t 0 = Some ch ->
     own ch columnHandler = None ->
     process t array =
     (mkItem (arraydef array) (frame array) (dashed array) (item_ralign array),
      Throw (TexError BadColumnCharacter (Some ch)))) /\
  (forall t array ch,
     In ch (dispatched (length t) (initState t array)) ->
     own ch columnHandler = None ->
     snd (process t array) = Throw (TexError BadColumnCharacter (Some ch)) /\
     arraydef (fst (process t array)) = arraydef array /\
     frame (fst (process t array)) = frame array /\
     dashed (fst (process t array)) = dashed array).
Proof.
  assert (P1 : forall fuel st ch,
     i st < length (template st) ->
     codePointStr (template st) (i st) = Some ch ->
     own ch columnHandler = None ->
     scanLoop (S fuel) st =
     (set_i (set_c st ch) (i st + length ch),
      Throw (TexError BadColumnCharacter (Some ch)))).
  { intros fuel st ch Hlt Hch Ho. rewrite scanLoop_eq.
    apply Nat.ltb_lt in Hlt. rewrite Hlt, step_eq, Hch. cbn zeta.
    now rewrite Ho. }
  split; [exact P1|]. split; [|split; [|split]].
  - intros t array arg. rewrite process_outcome.
    apply scanLoop_BadColumnCharacter. cbn. lia.
  - apply own_columnHandler_None.
  - intros t array ch Hch Ho. unfold process, scan.
    assert (Hlt : 0 < length t).
    { unfold codePointStr in Hch. destruct t; [discriminate | cbn; lia]. }
    destruct t as [|u t']; [cbn in Hlt; lia|].
    cbn [length]. rewrite (P1 _ (initState (u :: t') array) ch Hlt Hch Ho).
    reflexivity.
  - intros t array ch Hin Ho.
    assert (H : snd (process t array) =
                Throw (TexError BadColumnCharacter (Some ch)))
      by (rewrite process_outcome; now apply scanLoop_unregistered).
    split; [exact H|]. exact (process_raises _ _ _ H).
Qed.

(** C9.  [process] ends on every template: the iteration budgets of
    its loops, each the length of the template, are never used up; the
    cursor only moves forward, by at least one code unit in every turn
    of the main loop; and the brace scan does as many turns as it would
    with any larger budget.  It does not always end in a normal return
    or one of the four errors, though: on ["w"] the alignment reader
    calls [toLowerCase] on the [undefined] that [getBraces] returns at
    the end of the input, and [process] ends in a [TypeError]. *)
Theorem process_terminates :
  (forall t array, snd (process t array) <> OutOfFuel) /\
  (forall t array fuel,
     length t <= fuel -> scanLoop fuel (initState t array) = scan t array) /\
  (forall st,
     i st < length (template st) ->
     template (fst (step st)) = template st /\ i st < i (fst (step st))) /\
  (forall st,
     i st <= i (fst (getBraces st)) /\ snd (getBraces st) <> OutOfFuel) /\
  (forall fuel start braces st,
     length (template st) - i st <= fuel ->
     scanBraces fuel start braces st =
     scanBraces (length (template st) - i st) start braces st /\
     snd (scanBraces fuel start braces st) <> OutOfFuel) /\
  (forall array, snd (process (lit "w") array) = Throw TypeError).
Proof.
  split; [|split; [|split; [|split; [|split]]]].
  - intros t array. rewrite process_outcome.
    apply scanLoop_no_OutOfFuel. cbn. lia.
  - intros t array fuel Hf. apply scanLoop_fuel; cbn; lia.
  - intros st Hlt. split; now apply step_advances.
  - intros st. destruct (getBraces st) as [st' o] eqn:G.
    apply getBraces_props in G. cbn [fst snd]. tauto.
  - intros fuel start braces st Hf. split.
    + apply scanBraces_fuel; lia.
    + destruct (scanBraces fuel start braces st) as [st' o] eqn:G.
      apply scanBraces_props in G. now apply G.
  - intros array. rewrite process_outcome. reflexivity.
Qed.

(** ** The column index and the assignments *)

Lemma sorted_snoc (w : list Z) (k : Z) :
  StronglySorted Z.lt w -> Forall (fun x => (x < k)%Z) w ->
  StronglySorted Z.lt (w ++ [k]).
Proof.
  induction 1 as [|a w Hs IH Ha]; intros Hk; simpl.
  - constructor; constructor.
  - inversion Hk; subst. constructor; [now apply IH|].
    apply Forall_app. split; [assumption | now constructor].
Qed.

Lemma sorted_NoDup (w : list Z) : StronglySorted Z.lt w -> NoDup w.
Proof.
  induction 1 as [|a w Hs IH Ha]; constructor; [|assumption].
  intros Hin. rewrite Forall_forall in Ha. specialize (Ha _ Hin). lia.
Qed.

Lemma written_once_intro (base w : list Z) (hi : Z) :
  StronglySorted Z.lt w -> Forall (fun k => (0 <= k < hi)%Z) w ->
  written_once base (base ++ w) hi.
Proof. intros Hs Hb. exists w. auto using sorted_NoDup. Qed.

Lemma written_once_step (base old new : list Z) (k hi : Z) (may : bool) :
  (exists w, old = base ++ w /\ StronglySorted Z.lt w /\
             Forall (fun x => (0 <= x < k)%Z) w) ->
  appended old new k may ->
  (0 <= k)%Z ->
  (if may then (k < hi)%Z else (k <= hi)%Z) ->
  exists w, new = base ++ w /\ StronglySorted Z.lt w /\
            Forall (fun x => (0 <= x < hi)%Z) w.
Proof.
  intros (w & -> & Hs & Hb) [->|[-> ->]] Hk Hhi.
  - exists w. repeat split; auto.
    eapply Forall_impl; [|exact Hb]. cbn beta. destruct may; lia.
  - exists (w ++ [k]). rewrite app_assoc. repeat split.
    + apply sorted_snoc; [assumption|].
      eapply Forall_impl; [|exact Hb]. cbn beta. lia.
    + apply Forall_app. split.
      * eapply Forall_impl; [|exact Hb]. cbn beta. lia.
      * constructor; [lia | constructor].
Qed.

Local Abbreviation ordered base all hi :=
  (exists w, all = base ++ w /\ StronglySorted Z.lt w /\
             Forall (fun x => (0 <= x < hi)%Z) w).

Lemma ordered_weaken (base all : list Z) (hi hi' : Z) :
  ordered base all hi -> (hi <= hi')%Z -> ordered base all hi'.
Proof.
  intros (w & -> & Hs & Hb) Hle. exists w. repeat split; auto.
  eapply Forall_impl; [|exact Hb]. cbn beta. lia.
Qed.

Lemma scanLoop_writes (bc bw br : list Z) (fuel : nat) (st : ColumnState) :
  ((0 <= j st)%Z /\
   ordered bc (writes (calign st)) (j st) /\
   ordered bw (writes (cwidth st)) (j st) /\
   ordered br (writes (ralign st)) (j st)) ->
  length (template st) - i st <= fuel ->
  (fun st' o =>
     let hi := if is_ok o then j st' else (j st' + 1)%Z in
     ordered bc (writes (calign st')) hi /\
     ordered bw (writes (cwidth st')) hi /\
     ordered br (writes (ralign st')) hi)
    (fst (scanLoop fuel st)) (snd (scanLoop fuel st)).
Proof.
  apply (scanLoop_inv
           (fun st => (0 <= j st)%Z /\
                      ordered bc (writes (calign st)) (j st) /\
                      ordered bw (writes (cwidth st)) (j st) /\
                      ordered br (writes (ralign st)) (j st))
           (fun st' o =>
              let hi := if is_ok o then j st' else (j st' + 1)%Z in
              ordered bc (writes (calign st')) hi /\
              ordered bw (writes (cwidth st')) hi /\
              ordered br (writes (ralign st')) hi)).
  - intros st0 (_ & Hc & Hw & Hr) _. cbn. auto.
  - intros st0 ch (_ & Hc & Hw & Hr) _ _ _. cbn -[Z.add]. sp.
    repeat split; eapply ordered_weaken; eauto; lia.
  - intros st0 ch handler st' o (Hj & Hc & Hw & Hr) _ _ _ _ _
           [_ _ _ _ _ Ej Ec Ew Er]. sp.
    destruct o as [[]|e|]; [| |exact I]; cbn [is_ok] in *; cbv zeta;
      rewrite Ej; destruct (producing ch); cbn [andb];
      repeat split; try lia;
      eapply written_once_step; eauto; cbv iota; lia.
Qed.

Lemma dispatched_eq (fuel : nat) (st : ColumnState) :
  dispatched fuel st =
  if i st <? length (template st) then
    match fuel with
    | 0 => []
    | S fuel' =>
        match codePointStr (template st) (i st) with
        | Some ch =>
            ch :: match step st with
                  | (st', Ok _) => dispatched fuel' st'
                  | _ => []
                  end
        | None => []
        end
    end
  else [].
Proof. now destruct fuel. Qed.

Lemma scanLoop_count (fuel : nat) (st : ColumnState) :
  length (template st) - i st <= fuel ->
  snd (scanLoop fuel st) = Ok tt ->
  j (fst (scanLoop fuel st)) =
  (j st + Z.of_nat (length (filter producing (dispatched fuel st))))%Z.
Proof.
  revert st; induction fuel as [|fuel IH]; intros st Hf;
    rewrite scanLoop_eq, dispatched_eq;
    destruct (Nat.ltb_spec (i st) (length (template st))) as [Hlt|Hlt];
    try (intros _; cbn; lia).
  destruct (codePointStr_in_range _ _ Hlt) as (ch & Hch & Hc1 & Hc2).
  rewrite Hch. pose proof (step_eq st) as Es. rewrite Hch in Es. cbn zeta in Es.
  destruct (own ch columnHandler) as [handler|] eqn:Ho.
  - pose proof (columnHandler_effect ch handler
                  (set_i (set_c st ch) (i st + length ch)) Ho) as He.
    rewrite <- Es in He. destruct (step st) as [st' o]. cbn [fst snd] in He.
    destruct He as [Ht _ Hi _ _ Ej _ _ _]. sp.
    destruct o as [[]|e|]; try discriminate.
    intros Hok. rewrite IH by (try assumption; rewrite Ht; lia).
    rewrite Ej. cbn [filter is_ok]. destruct (producing ch); cbn [andb length]; lia.
  - rewrite Es. discriminate.
Qed.

Lemma annotating_not_producing (ch : str) :
  annotating ch = true -> producing ch = false.
Proof.
  unfold annotating. cbn [existsb]. rewrite !orb_true_iff.
  intros H.
  repeat (destruct H as [H|H]; [apply str_eqb_eq in H; now subst|]).
  discriminate.
Qed.

(** C8.  A handler assigns [calign], [cwidth] and [ralign] at no key but
    the column index [j] it starts with, at most once each, and only a
    column-producing handler does; [j] goes up by one when such a
    handler returns and stays as it is otherwise, so the border and
    annotation specifiers never change it.  Over a whole scan the keys
    assigned in each of the three arrays are therefore increasing, no
    key is assigned twice, all of them are below the final [j] (the
    one of a handler that raised is [j] itself), and when the loop ends
    normally [j] is the number of column-producing specifiers it
    dispatched. *)
Theorem column_index_discipline :
  (forall ch handler st,
     own ch columnHandler = Some handler ->
     let st' := fst (handler st) in
     let o := snd (handler st) in
     j st' = (if producing ch && is_ok o then j st + 1 else j st)%Z /\
     (annotating ch = true -> j st' = j st) /\
     appended (writes (calign st)) (writes (calign st')) (j st) (producing ch) /\
     appended (writes (cwidth st)) (writes (cwidth st')) (j st) (producing ch) /\
     appended (writes (ralign st)) (writes (ralign st')) (j st) (producing ch)) /\
  (forall t array,
     let st := fst (scan t array) in
     let o := snd (scan t array) in
     let hi := (if is_ok o then j st else j st + 1)%Z in
     written_once [] (writes (calign st)) hi /\
     written_once [] (writes (cwidth st)) hi /\
     written_once (writes (item_ralign array)) (writes (ralign st)) hi /\
     (o = Ok tt ->
      j st = Z.of_nat (length (filter producing
                                 (dispatched (length t) (initState t array)))))).
Proof.
  split.
  - intros ch handler st Ho.
    destruct (columnHandler_effect ch handler st Ho) as [_ _ _ _ _ Ej Ec Ew Er].
    cbv zeta. repeat split; try assumption.
    intros Ha. rewrite Ej, (annotating_not_producing _ Ha). reflexivity.
  - intros t array. cbv zeta. unfold scan.
    pose proof (scanLoop_writes [] [] (writes (item_ralign array))
                  (length t) (initState t array)) as H.
    cbv beta zeta in H.
    destruct H as (Hc & Hw & Hr).
    { cbn. repeat split; try lia; exists []; rewrite ?app_nil_r;
        repeat split; constructor. }
    { cbn. lia. }
    repeat split.
    + destruct Hc as (w & -> & Hs & Hb). now apply written_once_intro.
    + destruct Hw as (w & -> & Hs & Hb). now apply written_once_intro.
    + destruct Hr as (w & -> & Hs & Hb). now apply written_once_intro.
    + intros Hok. rewrite scanLoop_count; [reflexivity | cbn; lia | assumption].
Qed.

(** ** Templates of simple columns *)

Lemma alignColumn_lcr (u : N) :
  In u (lit "lcr") ->
  is_high_surrogate u = false /\
  own [u] columnHandler = Some (alignColumn (alignment u)).
Proof.
  intros [<-|[<-|[<-|[]]]]; split; reflexivity.
Qed.

Lemma elems_aset_end {A : Type} (a : JSArray A) (v : option A) :
  elems (aset a (Z.of_nat (length (elems a))) v) = elems a ++ [v].
Proof.
  unfold aset. destruct (Z.ltb_spec (Z.of_nat (length (elems a))) 0); [lia|].
  cbn [elems]. rewrite Nat2Z.id. apply store_at_end.
Qed.

Lemma scanLoop_lcr (s pre : str) (st : ColumnState) (fuel : nat) :
  template st = pre ++ s -> i st = length pre ->
  Forall (fun u => In u (lit "lcr")) s ->
  length s <= fuel ->
  j st = Z.of_nat (length (elems (calign st))) ->
  exists st',
    scanLoop fuel st = (st', Ok tt) /\
    elems (calign st') =
      elems (calign st) ++ map (fun u => Some (alignment u)) s /\
    cwidth st' = cwidth st /\ clines st' = clines st /\
    ralign st' = ralign st.
Proof.
  revert pre st fuel; induction s as [|u s IH]; intros pre st fuel Ht Hi Hs Hf Hj;
    rewrite scanLoop_eq, Ht, Hi.
  - rewrite app_nil_r, Nat.ltb_irrefl. exists st. now rewrite app_nil_r.
  - replace (length pre <? length (pre ++ u :: s)) with true
      by (symmetry; apply Nat.ltb_lt; rewrite length_app; simpl; lia).
    destruct fuel as [|fuel]; [simpl in Hf; lia|].
    inversion Hs as [|? ? Hu Hs']; subst.
    destruct (alignColumn_lcr u Hu) as (Hhi & Ho).
    rewrite step_eq, Ht, Hi. unfold codePointStr.
    rewrite nth_error_cursor, Hhi. cbn zeta. rewrite Ho.
    unfold alignColumn, bind, get, modify. sp.
    match goal with
    | |- context [scanLoop fuel ?st2] =>
        destruct (IH (pre ++ [u]) st2 fuel) as (st' & E & Ec & Ew & El & Er)
    end; sp.
    + rewrite Ht, <- app_assoc. reflexivity.
    + rewrite length_app. reflexivity.
    + assumption.
    + simpl in Hf. lia.
    + rewrite Hj, elems_aset_end, length_app. simpl. lia.
    + exists st'. split; [exact E|].
      rewrite Ec, Hj, elems_aset_end, <- app_assoc. auto.
Qed.

(** C6.  On a template of [l], [c] and [r] only, [process] returns
    normally and [columnalign] is the alignment keywords of its
    characters, one for each, in their order, joined by spaces. *)
Theorem simple_columns_columnalign (t : str) (array : ArrayItem) :
  Forall (fun u => In u (lit "lcr")) t ->
  snd (process t array) = Ok tt /\
  columnalign (arraydef (fst (process t array))) =
    Some (join (lit " ") (map (fun u => Some (alignment u)) t)).
Proof.
  intros Ht. unfold process, scan.
  destruct (scanLoop_lcr t [] (initState t array) (length t))
    as (st' & E & Ec & Ew & El & Er); try easy.
  rewrite E. split; [reflexivity|].
  unfold finalize. rewrite Ew, El. cbn -[join lit]. now rewrite Ec.
Qed.

(** ** The brace reader against the specification *)

Lemma skipSpaces_run (n : nat) (pre rest : str) (st : ColumnState) (fuel : nat) :
  template st = pre ++ repeat SPACE n ++ rest ->
  i st = length pre ->
  hd_error rest <> Some SPACE ->
  n <= fuel ->
  skipSpaces fuel st = (set_i st (length pre + n), Ok tt).
Proof.
  revert pre st fuel; induction n as [|n IH]; intros pre st fuel Ht Hi Hr Hf;
    rewrite skipSpaces_eq, Ht, Hi; unfold index; cbn [repeat app].
  - replace (strict_eq _ _) with false.
    { now rewrite Nat.add_0_r, <- Hi, set_i_same. }
    destruct rest as [|u rest]; [now rewrite app_nil_r, nth_error_end|].
    rewrite nth_error_cursor. cbn [option_map strict_eq].
    rewrite str_eqb_unit. unfold is_char. symmetry. apply N.eqb_neq.
    intros ->. now apply Hr.
  - rewrite nth_error_cursor. cbn [option_map strict_eq].
    rewrite str_eqb_unit. unfold is_char. rewrite N.eqb_refl.
    destruct fuel as [|fuel]; [lia|].
    rewrite (IH (pre ++ [SPACE]) _ fuel); sp.
    + rewrite set_i_set_i, length_app. cbn [length]. do 2 f_equal. lia.
    + rewrite Ht, <- app_assoc. reflexivity.
    + rewrite length_app. cbn [length]. lia.
    + assumption.
    + lia.
Qed.

Lemma scanBraces_closing (fuel : nat) (s pre : str) (st : ColumnState)
      (start depth : nat) :
  template st = pre ++ s -> i st = length pre ->
  length s <= fuel -> 1 <= depth ->
  match closing depth s with
  | Some m =>
      scanBraces fuel start (Z.of_nat depth) st =
      (set_i st (length pre + m),
       Ok (Some (slice (template st) start (length pre + m - 1)))) /\
      1 <= m
  | None =>
      exists k, scanBraces fuel start (Z.of_nat depth) st =
                (set_i st k, Throw (TexError MissingCloseBrace None))
  end.
Proof.
  revert s pre st depth; induction fuel as [|fuel IH];
    intros s pre st depth Ht Hi Hf Hd; rewrite scanBraces_eq, Ht, Hi.
  { destruct s; [|simpl in Hf; lia].
    rewrite app_nil_r, Nat.ltb_irrefl. cbn [closing].
    exists (length pre). now rewrite <- Hi, set_i_same. }
  destruct s as [|u s].
  { rewrite app_nil_r, Nat.ltb_irrefl. cbn [closing].
    exists (length pre). now rewrite <- Hi, set_i_same. }
  replace (length pre <? length (pre ++ u :: s)) with true
    by (symmetry; apply Nat.ltb_lt; rewrite length_app; simpl; lia).
  cbn zeta. unfold charAt. rewrite nth_error_cursor, !str_eqb_unit. sp.
  assert (Hrec : forall q s2 d st2,
    template st2 = (pre ++ q) ++ s2 ->
    st2 = set_i st (length pre + length q) ->
    length s2 <= fuel -> 1 <= d ->
    match closing d s2 with
    | Some m =>
        scanBraces fuel start (Z.of_nat d) st2 =
        (set_i st (length pre + (length q + m)),
         Ok (Some (slice (pre ++ u :: s) start
                     (length pre + (length q + m) - 1)))) /\
        1 <= length q + m
    | None =>
        exists k, scanBraces fuel start (Z.of_nat d) st2 =
                  (set_i st k, Throw (TexError MissingCloseBrace None))
    end).
  { intros q s2 d st2 Ht2 E2 Hf2 Hd2.
    assert (Hi2 : i st2 = length (pre ++ q)) by (rewrite E2, length_app; now sp).
    pose proof (IH s2 (pre ++ q) st2 d Ht2 Hi2 Hf2 Hd2) as H.
    destruct (closing d s2) as [m|].
    - destruct H as (H & Hm). rewrite H, E2, length_app. sp.
      rewrite Ht, Nat.add_assoc. split; [reflexivity | lia].
    - destruct H as (k & H). exists k. now rewrite H, E2. }
  cbn [closing]. simpl in Hf.
  destruct (is_char u "\").
  { destruct s as [|u2 s].
    - rewrite scanBraces_eq. sp. rewrite Ht, length_app. cbn [length].
      replace (S (S (length pre)) <? length pre + 1) with false
        by (symmetry; apply Nat.ltb_ge; lia).
      now exists (S (S (length pre))).
    - specialize (Hrec [u; u2] s depth
                    (set_i st (S (S (length pre))))).
      destruct (closing depth s) as [m|]; cbn [option_map].
      + apply Hrec; sp; cbn [length]; try lia.
        * rewrite Ht, <- app_assoc. reflexivity.
        * f_equal. lia.
        * simpl in Hf. lia.
      + apply Hrec; sp; cbn [length]; try lia.
        * rewrite Ht, <- app_assoc. reflexivity.
        * f_equal. lia.
        * simpl in Hf. lia. }
  assert (Hone : forall d, 1 <= d ->
    match option_map S (closing d s) with
    | Some m =>
        scanBraces fuel start (Z.of_nat d) (set_i st (S (length pre))) =
        (set_i st (length pre + m),
         Ok (Some (slice (pre ++ u :: s) start (length pre + m - 1)))) /\
        1 <= m
    | None =>
        exists k, scanBraces fuel start (Z.of_nat d) (set_i st (S (length pre))) =
                  (set_i st k, Throw (TexError MissingCloseBrace None))
    end).
  { intros d Hd1.
    specialize (Hrec [u] s d (set_i st (S (length pre)))).
    destruct (closing d s) as [m|]; cbn [option_map].
    - replace (S m) with (length [u] + m) by reflexivity.
      apply Hrec; sp; cbn [length]; try lia.
      + rewrite Ht, <- app_assoc. reflexivity.
      + f_equal. lia.
    - apply Hrec; sp; cbn [length]; try lia.
      + rewrite Ht, <- app_assoc. reflexivity.
      + f_equal. lia. }
  destruct (is_char u "{").
  { replace (Z.of_nat depth + 1)%Z with (Z.of_nat (S depth)) by lia.
    apply Hone. lia. }
  destruct (is_char u "}"); [|now apply Hone].
  destruct depth as [|[|d]]; [lia| |].
  - replace (Z.of_nat 1 - 1 =? 0)%Z with true by reflexivity.
    sp. rewrite ?Ht, Nat.add_1_r. split; [reflexivity | lia].
  - replace (Z.of_nat (S (S d)) - 1 =? 0)%Z with false
      by (symmetry; apply Z.eqb_neq; lia).
    replace (Z.of_nat (S (S d)) - 1)%Z with (Z.of_nat (S d)) by lia.
    apply Hone. lia.
Qed.

(** C4.  With [n] spaces and then the code unit [u] at the cursor,
    [getBraces] skips the spaces; when [u] is not an opening brace it
    returns [u] alone and leaves the cursor after it; when it is, the
    text after it is scanned by depth as the specification says
    ([closing]): the argument is the text strictly between the outer
    braces and the cursor is left after the closing one, and
    [MissingCloseBrace] is raised when the input ends first. *)
Theorem getBraces_reads_argument (st : ColumnState) (n : nat) (u : N) (body : str) :
  skipn (i st) (template st) = repeat SPACE n ++ u :: body ->
  u <> SPACE ->
  if is_char u "{" then
    match closing 1 body with
    | Some m =>
        getBraces st =
        (set_i st (i st + n + 1 + m), Ok (Some (firstn (m - 1) body)))
    | None =>
        exists k, getBraces st =
                  (set_i st k, Throw (TexError MissingCloseBrace None))
    end
  else getBraces st = (set_i st (i st + n + 1), Ok (Some [u])).
Proof.
  intros Hs Hu.
  destruct (cursor_split _ _ _ Hs) as (Ht & Hi).
  { destruct n; discriminate. }
  set (pre := firstn (i st) (template st)) in *.
  assert (Ht' : template st = (pre ++ repeat SPACE n) ++ u :: body)
    by (now rewrite <- app_assoc).
  assert (Hl : length (pre ++ repeat SPACE n) = i st + n)
    by (now rewrite length_app, repeat_length, Hi).
  assert (Hidx : index (template st) (i st + n) = Some [u]).
  { unfold index. now rewrite Ht', <- Hl, nth_error_cursor. }
  assert (Hgb : getBraces st =
    if negb (is_char u "{") then (set_i st (S (i st + n)), Ok (Some [u]))
    else scanBraces (length (template st)) (S (i st + n)) 1
           (set_i st (S (i st + n)))).
  { assert (Hh : hd_error (u :: body) <> Some SPACE)
      by (cbn [hd_error]; congruence).
    assert (Hn : n <= length (template st))
      by (rewrite Ht', !length_app, repeat_length; lia).
    rewrite getBraces_eq.
    rewrite (skipSpaces_run n pre (u :: body) st _ Ht (eq_sym Hi) Hh Hn).
    sp. rewrite Hi.
    replace (length (template st) <? i st + n) with false
      by (symmetry; apply Nat.ltb_ge; rewrite Ht', length_app; simpl; lia).
    rewrite Hidx. cbn [strict_eq]. now rewrite str_eqb_unit. }
  rewrite Hgb. clear Hgb.
  destruct (is_char u "{"); cbn [negb].
  - pose proof (scanBraces_closing (length (template st)) body
                  ((pre ++ repeat SPACE n) ++ [u])
                  (set_i st (S (i st + n))) (S (i st + n)) 1) as H.
    sp. rewrite length_app, Hl in H. cbn [length] in H.
    rewrite <- app_assoc in H. specialize (H Ht' ltac:(lia)).
    assert (Hb : length body <= length (template st))
      by (rewrite Ht', length_app; simpl; lia).
    specialize (H Hb (le_n 1)). change (Z.of_nat 1) with 1%Z in H.
    destruct (closing 1 body) as [m|].
    + destruct H as (H & Hm). rewrite H.
      rewrite set_i_set_i.
      do 3 f_equal. unfold slice. rewrite Ht'.
      replace (S (i st + n)) with (length ((pre ++ repeat SPACE n) ++ [u]))
        by (rewrite length_app, Hl; simpl; lia).
      replace ((pre ++ repeat SPACE n) ++ u :: body)
        with (((pre ++ repeat SPACE n) ++ [u]) ++ body)
        by (now rewrite <- app_assoc).
      rewrite skipn_app, skipn_all, Nat.sub_diag. cbn [app skipn].
      f_equal. rewrite length_app, Hl. simpl. lia.
    + destruct H as (k & H). exists k. now rewrite H.
  - do 2 f_equal. lia.
Qed.

(** ** Boxed columns *)

Lemma getColumn_boxed (cls : TEXCLASS) (st st1 : ColumnState) (dim : value) :
  getBraces st = (st1, Ok dim) ->
  getColumn cls None st =
  let ca := aset (calign st) (j st) (Some (lit "left")) in
  match matchDimen dim with
  | Some true =>
      (set_j
         (set_ralign
            (set_cwidth (set_calign st1 ca) (aset (cwidth st) (j st) dim))
            (aset (ralign st) (j st) (Some (cls, dim, Some (lit "left")))))
         (j st + 1)%Z,
       Ok tt)
  | Some false =>
      (set_calign st1 ca, Throw (TexError MissingColumnDimOrUnits (Some (c st))))
  | None => (set_calign st1 ca, Throw ValidatorError)
  end.
Proof.
  intros G. unfold_handler.
  match goal with
  | |- context [getBraces ?s] =>
      destruct (getBraces_shape s st eq_refl eq_refl eq_refl) as (k & o & E1 & E2)
  end.
  rewrite E1. rewrite E2 in G. injection G as <- ->. sp.
  destruct (matchDimen dim) as [[]|]; try reflexivity.
  sp. now rewrite !aget_aset_same.
Qed.

Lemma step_boxed (st st1 : ColumnState) (ch : str) (cls : TEXCLASS) (dim : value) :
  codePointStr (template st) (i st) = Some ch ->
  In (ch, cls) [(lit "p", VTOP); (lit "m", VCENTER); (lit "b", VBOX)] ->
  getBraces (set_i (set_c st ch) (i st + 1)) = (st1, Ok dim) ->
  step st =
  let ca := aset (calign st) (j st) (Some (lit "left")) in
  match matchDimen dim with
  | Some true =>
      (set_j
         (set_ralign
            (set_cwidth (set_calign st1 ca) (aset (cwidth st) (j st) dim))
            (aset (ralign st) (j st) (Some (cls, dim, Some (lit "left")))))
         (j st + 1)%Z,
       Ok tt)
  | Some false =>
      (set_calign st1 ca, Throw (TexError MissingColumnDimOrUnits (Some ch)))
  | None => (set_calign st1 ca, Throw ValidatorError)
  end.
Proof.
  intros Hch Hin G.
  assert (Ho : own ch columnHandler = Some (getColumn cls None) /\ length ch = 1).
  { destruct Hin as [E|[E|[E|[]]]]; injection E as <- <-; now split. }
  destruct Ho as (Ho & Hlen).
  rewrite step_eq, Hch. cbn zeta. rewrite Ho, Hlen.
  now rewrite (getColumn_boxed cls _ _ _ G).
Qed.

Lemma scanLoop_turn (fuel : nat) (st st' : ColumnState) :
  (i st <? length (template st)) = true ->
  step st = (st', Ok tt) ->
  scanLoop (S fuel) st = scanLoop fuel st'.
Proof. intros H E. now rewrite scanLoop_eq, H, E. Qed.

Lemma scanLoop_raise (fuel : nat) (st st' : ColumnState) (e : exn) :
  (i st <? length (template st)) = true ->
  step st = (st', Throw e) ->
  scanLoop (S fuel) st = (st', Throw e).
Proof. intros H E. now rewrite scanLoop_eq, H, E. Qed.

(** C5.  When the loop reads [p], [m] or [b] and the argument that
    follows passes the dimension validator, the turn stores the triple
    of the vertical class, the width and ['left'] in [ralign] at the
    column index, the alignment and the width in [calign] and [cwidth]
    at the same index, and adds one to [j]; when the argument fails the
    validator, the turn raises [MissingColumnDimOrUnits] naming the
    specifier.  So, under a validator that accepts ["3cm"], the
    template ["p{3cm}c"] gives [ralign[0] = (VTOP, "3cm", "left")] and
    the [columnwidth] ["3cm auto"], and under one that rejects ["nope"]
    the template ["p{nope}"] raises [MissingColumnDimOrUnits] for [p]. *)
Theorem boxed_column :
  (forall st st1 ch cls dim,
     codePointStr (template st) (i st) = Some ch ->
     In (ch, cls) [(lit "p", VTOP); (lit "m", VCENTER); (lit "b", VBOX)] ->
     getBraces (set_i (set_c st ch) (i st + 1)) = (st1, Ok dim) ->
     (matchDimen dim = Some true ->
      exists st2,
        step st = (st2, Ok tt) /\
        aget (ralign st2) (j st) = Some (cls, dim, Some (lit "left")) /\
        aget (calign st2) (j st) = Some (lit "left") /\
        aget (cwidth st2) (j st) = dim /\
        j st2 = (j st + 1)%Z /\ i st2 = i st1) /\
     (matchDimen dim = Some false ->
      exists st2,
        step st = (st2, Throw (TexError MissingColumnDimOrUnits (Some ch))))) /\
  (forall array,
     matchDimen (Some (lit "3cm")) = Some true ->
     let r := process (lit "p{3cm}c") array in
     snd r = Ok tt /\
     aget (item_ralign (fst r)) 0 = Some (VTOP, Some (lit "3cm"), Some (lit "left")) /\
     columnwidth (arraydef (fst r)) = Some (lit "3cm auto")) /\
  (forall array,
     matchDimen (Some (lit "nope")) = Some false ->
     snd (process (lit "p{nope}") array) =
     Throw (TexError MissingColumnDimOrUnits (Some (lit "p")))).
Proof.
  split; [|split].
  - intros st st1 ch cls dim Hch Hin G.
    rewrite (step_boxed st st1 ch cls dim Hch Hin G). cbv zeta.
    split; intros ->.
    + eexists. split; [reflexivity|]. sp. rewrite !aget_aset_same.
      pose proof (getBraces_only_i _ _ _ G) as S1. rewrite S1. sp. auto.
    + eexists. reflexivity.
  - intros array H. cbv zeta.
    set (st0 := initState (lit "p{3cm}c") array).
    assert (Hlt : (i st0 <? length (template st0)) = true) by reflexivity.
    assert (Hch : codePointStr (template st0) (i st0) = Some (lit "p"))
      by reflexivity.
    assert (Hin : In (lit "p", VTOP)
                    [(lit "p", VTOP); (lit "m", VCENTER); (lit "b", VBOX)])
      by (left; reflexivity).
    assert (G : getBraces (set_i (set_c st0 (lit "p")) (i st0 + 1)) =
                (set_i (set_c st0 (lit "p")) 6, Ok (Some (lit "3cm"))))
      by (vm_compute; reflexivity).
    pose proof (step_boxed st0 _ _ _ _ Hch Hin G) as Es.
    rewrite H in Es. cbv zeta in Es.
    unfold process, scan. change (length (lit "p{3cm}c")) with 7.
    fold st0. rewrite (scanLoop_turn 6 st0 _ Hlt Es).
    match goal with
    | |- context [scanLoop 6 ?s] =>
        assert (E2 : scanLoop 6 s = (fst (scanLoop 6 s), Ok tt))
          by (subst st0; destruct array as [def fr da [el pr wr]];
              vm_compute; reflexivity);
        rewrite E2
    end.
    subst st0. destruct array as [def fr da [[|x el] pr wr]];
      repeat split; vm_compute; reflexivity.
  - intros array H.
    set (st0 := initState (lit "p{nope}") array).
    assert (Hlt : (i st0 <? length (template st0)) = true) by reflexivity.
    assert (Hch : codePointStr (template st0) (i st0) = Some (lit "p"))
      by reflexivity.
    assert (Hin : In (lit "p", VTOP)
                    [(lit "p", VTOP); (lit "m", VCENTER); (lit "b", VBOX)])
      by (left; reflexivity).
    assert (G : getBraces (set_i (set_c st0 (lit "p")) (i st0 + 1)) =
                (set_i (set_c st0 (lit "p")) 7, Ok (Some (lit "nope"))))
      by (vm_compute; reflexivity).
    pose proof (step_boxed st0 _ _ _ _ Hch Hin G) as Es.
    rewrite H in Es. cbv zeta in Es.
    unfold process, scan. change (length (lit "p{nope}")) with 7.
    fold st0. rewrite (scanLoop_raise 6 st0 _ _ Hlt Es). reflexivity.
Qed.

(** ** The reserved arrays *)

Lemma handler_same_but_cend (ch : str) (handler : M unit) (st1 st2 : ColumnState) :
  own ch columnHandler = Some handler ->
  same_but_cend st1 st2 ->
  same_but_cend (fst (handler st1)) (fst (handler st2)) /\
  snd (handler st2) = snd (handler st1).
Proof.
  intros H ->. apply own_In in H. unfold columnHandler in H. unfold same_but_cend.
  repeat (destruct H as [H|H]; [injection H as <- <-|]); try contradiction.
  all: unfold_handler.
  all: repeat first
    [ match goal with
      | |- context [getBraces ?s2] =>
          match goal with
          | |- context [getBraces ?s1] =>
              lazymatch s1 with
              | s2 => fail
              | _ => idtac
              end;
              let E1 := fresh "E" in
              let E2 := fresh "E" in
              destruct (getBraces_shape s1 s2 eq_refl eq_refl eq_refl)
                as (? & ? & E1 & E2);
              rewrite E1, E2; clear E1 E2; sp
          end
      end
    | match goal with
      | |- context [match ?o with Ok _ => _ | Throw _ => _ | OutOfFuel => _ end] =>
          destruct o; sp
      | |- context [match ?v with Some _ => _ | None => _ end] =>
          destruct v; sp
      | |- context [if ?b then _ else _] => destruct b; sp
      end ].
  all: split; reflexivity.
Qed.

Lemma scanLoop_same_but_cend (fuel : nat) (st1 st2 : ColumnState) :
  same_but_cend st1 st2 ->
  same_but_cend (fst (scanLoop fuel st1)) (fst (scanLoop fuel st2)) /\
  snd (scanLoop fuel st2) = snd (scanLoop fuel st1).
Proof.
  revert st1 st2; induction fuel as [|fuel IH]; intros st1 st2 H;
    rewrite (scanLoop_eq _ st1), (scanLoop_eq _ st2);
    pose proof H as H'; unfold same_but_cend in H'; rewrite H'; sp;
    destruct (i st1 <? length (template st1)); try (split; [exact H|reflexivity]);
    try (split; reflexivity).
  rewrite !step_eq. sp.
  destruct (codePointStr (template st1) (i st1)) as [ch|]; [|now split].
  cbn zeta. sp.
  destruct (own ch columnHandler) as [handler|] eqn:Ho; [|now split].
  destruct (handler_same_but_cend ch handler
              (set_i (set_c st1 ch) (i st1 + length ch))
              (set_i (set_c (set_cend st1 (cend st2)) ch) (i st1 + length ch))
              Ho eq_refl) as (Hs & Ho').
  destruct (handler (set_i (set_c st1 ch) _)) as [sa oa].
  destruct (handler (set_i (set_c (set_cend st1 (cend st2)) ch) _)) as [sb ob].
  cbn [fst snd] in Hs, Ho'. subst ob.
  destruct oa as [[]|e|]; try (split; [exact Hs | reflexivity]).
  now apply IH.
Qed.

(** C10.  The handler of [<] at column index 0, with an argument that
    [getBraces] could read, raises nothing: it stores the argument in
    [cend] under the key [-1], which is not a slot of the array, and
    goes on.  Nothing reads it back: from there on the scan ends in the
    same way, and finalization assigns the same array item, as from
    the state in which the argument was read and not stored. *)
Theorem cend_underflow_harmless (st st1 : ColumnState) (v : value) (handler : M unit) :
  own (lit "<") columnHandler = Some handler ->
  j st = 0%Z ->
  getBraces st = (st1, Ok v) ->
  let st2 := set_cend st1 (aset (cend st1) (-1) v) in
  handler st = (st2, Ok tt) /\
  aget (cend st2) (-1) = v /\
  elems (cend st2) = elems (cend st) /\
  (forall fuel array,
     snd (scanLoop fuel st2) = snd (scanLoop fuel st1) /\
     finalize (fst (scanLoop fuel st2)) array =
     finalize (fst (scanLoop fuel st1)) array).
Proof.
  intros Ho Hj G. cbv zeta.
  assert (handler = (st <- get ;;
              let k := (j st - 1)%Z in
              v <- getBraces ;;
              modify (fun st => set_cend st (aset (cend st) k v)))) as ->.
  { apply (f_equal (fun o => match o with Some h => h | None => handler end))
      in Ho. symmetry. exact Ho. }
  pose proof (getBraces_only_i _ _ _ G) as S1.
  unfold bind, get, modify. rewrite G, Hj. cbn [Z.sub Z.add Z.opp].
  split; [reflexivity|]. split; [sp; apply aget_aset_same|].
  split; [now rewrite S1|].
  intros fuel array.
  destruct (scanLoop_same_but_cend fuel st1
              (set_cend st1 (aset (cend st1) (-1) v)) eq_refl) as (Hs & Ho').
  split; [exact Ho'|]. rewrite Hs. reflexivity.
Qed.

(** ** Finalization *)

Lemma count_occ_join (l : list str) :
  l <> [] ->
  Forall (fun w => ~ In SPACE w) l ->
  count_occ N.eq_dec (join (lit " ") (map Some l)) SPACE = length l - 1.
Proof.
  induction l as [|w l IH]; [congruence|]. intros _ Hl.
  inversion Hl as [|? ? Hw Hl']; subst.
  destruct l as [|w2 l].
  - cbn [map join to_s length]. now apply count_occ_not_In.
  - specialize (IH ltac:(discriminate) Hl').
    change (join (lit " ") (map Some (w :: w2 :: l)))
      with (w ++ lit " " ++ join (lit " ") (map Some (w2 :: l))).
    rewrite !count_occ_app, IH, (proj1 (count_occ_not_In N.eq_dec w SPACE) Hw).
    cbn. lia.
Qed.

Lemma token_count_join (l : list str) :
  Forall (fun w => w <> [] /\ ~ In SPACE w) l ->
  token_count (join (lit " ") (map Some l)) = length l.
Proof.
  intros Hl. destruct l as [|w l]; [reflexivity|].
  assert (Hc : count_occ N.eq_dec (join (lit " ") (map Some (w :: l))) SPACE =
               length (w :: l) - 1).
  { apply count_occ_join; [discriminate|].
    eapply Forall_impl; [|exact Hl]. cbn beta. tauto. }
  inversion Hl as [|? ? [Hw _] _]; subst.
  unfold token_count. rewrite Hc.
  destruct (join (lit " ") (map Some (w :: l))) eqn:E; [|cbn; lia].
  exfalso. destruct w as [|u w]; [congruence|].
  destruct l; cbn in E; discriminate.
Qed.

(** C2, as amended.  When the scan has left widths in [cwidth],
    [process] sets [columnwidth] to the widths, followed by one
    ['auto'] when there are fewer widths than alignments (not by as
    many as it takes to reach their number), each empty width replaced
    by ['auto'], joined by spaces.  The entries joined are one more
    than the widths in the first case and as many in the second; they
    are the space-separated tokens of [columnwidth] when no width has
    a space in it. *)
Theorem columnwidth_one_auto (t : str) (array : ArrayItem) (st : ColumnState) :
  scan t array = (st, Ok tt) ->
  0 < alength (cwidth st) ->
  let widths := elems (cwidth st) in
  let padded :=
    if length widths <? alength (calign st)
    then widths ++ [Some (lit "auto")] else widths in
  let columns := map (fun w => Some (or_else w (lit "auto"))) padded in
  columnwidth (arraydef (fst (process t array))) = Some (join (lit " ") columns) /\
  Forall (fun w => truthy w = true) columns /\
  length columns =
    (if length widths <? alength (calign st)
     then S (length widths) else length widths) /\
  (Forall (fun w => ~ In SPACE (to_s w)) widths ->
   option_map token_count (columnwidth (arraydef (fst (process t array)))) =
   Some (if length widths <? alength (calign st)
         then S (length widths) else length widths)).
Proof.
  intros Hs Hw. cbv zeta.
  assert (Hlen : length (map (fun w => Some (or_else w (lit "auto")))
                           (if length (elems (cwidth st)) <? alength (calign st)
                            then elems (cwidth st) ++ [Some (lit "auto")]
                            else elems (cwidth st))) =
                 (if length (elems (cwidth st)) <? alength (calign st)
                  then S (length (elems (cwidth st)))
                  else length (elems (cwidth st)))).
  { rewrite length_map.
    destruct (length (elems (cwidth st)) <? alength (calign st));
      [rewrite length_app; simpl; lia | reflexivity]. }
  assert (Hcw : columnwidth (arraydef (fst (process t array))) =
                Some (join (lit " ")
                        (map (fun w => Some (or_else w (lit "auto")))
                           (if length (elems (cwidth st)) <? alength (calign st)
                            then elems (cwidth st) ++ [Some (lit "auto")]
                            else elems (cwidth st))))).
  { unfold process. rewrite Hs. cbn [fst]. apply Nat.ltb_lt in Hw.
    unfold finalize. rewrite Hw.
    destruct (0 <? alength (clines st)); reflexivity. }
  split; [exact Hcw|]. split; [|split; [exact Hlen|]].
  - apply Forall_map, Forall_forall. intros [[|u w]|] _; reflexivity.
  - intros Hsp. rewrite Hcw. cbn [option_map]. f_equal.
    rewrite <- Hlen, <- (map_map (fun w => or_else w (lit "auto")) Some).
    rewrite token_count_join; [now rewrite !length_map|].
    apply Forall_map.
    assert (Hpad : Forall (fun w => ~ In SPACE (to_s w))
                     (if length (elems (cwidth st)) <? alength (calign st)
                      then elems (cwidth st) ++ [Some (lit "auto")]
                      else elems (cwidth st))).
    { destruct (_ <? _); [|exact Hsp]. apply Forall_app. split; [exact Hsp|].
      constructor; [|constructor]. cbn. intros [H|[H|[H|[H|[]]]]]; discriminate H. }
    eapply Forall_impl; [|exact Hpad]. cbn beta.
    intros [[|u w]|] Hn; cbn [or_else to_s] in *.
    + split; [discriminate|]. cbn. intros [H|[H|[H|[H|[]]]]]; discriminate H.
    + split; [discriminate | exact Hn].
    + split; [discriminate|]. cbn. intros [H|[H|[H|[H|[]]]]]; discriminate H.
Qed.

(** C1, as amended.  On ["|l|c|r|"] [process] returns normally with
    [columnalign] ["left center right"], ['left'] and then ['right']
    appended to [frame], [dashed] false, and [columnlines]
    ["solid solid"]: the two borders between the columns are the solid
    ones the template asks for. *)
Theorem framed_three_columns (array : ArrayItem) :
  process (lit "|l|c|r|") array =
  (mkItem (mkDef (Some (lit "left center right"))
                 (columnwidth (arraydef array))
                 (Some (lit "solid solid")))
          (frame array ++ [lit "left"; lit "right"])
          false
          (item_ralign array),
   Ok tt).
Proof.
  change (frame array ++ [lit "left"; lit "right"])
    with (frame array ++ [lit "left"] ++ [lit "right"]).
  rewrite app_assoc. vm_compute. reflexivity.
Qed.

(** ** Further properties: the slots of the arrays *)

Lemma store_at_length {A : Type} (k : nat) (v : option A) (l : list (option A)) :
  length (store_at k v l) = Nat.max (S k) (length l).
Proof.
  revert l; induction k as [|k IH]; intros [|x l]; simpl; try reflexivity.
  - now rewrite IH.
  - now rewrite IH.
Qed.

Lemma Forall_store_at {A : Type} (P : option A -> Prop) (k : nat) (v : option A)
      (l : list (option A)) :
  P None -> P v -> Forall P l -> Forall P (store_at k v l).
Proof.
  intros Hn Hv. revert l; induction k as [|k IH]; intros [|x l] Hl; simpl.
  - now constructor.
  - inversion Hl; now constructor.
  - constructor; [assumption | now apply IH].
  - inversion Hl; subst. constructor; [assumption | now apply IH].
Qed.

Lemma elems_aset_nat {A : Type} (a : JSArray A) (n : nat) (v : option A) :
  elems (aset a (Z.of_nat n) v) = store_at n v (elems a).
Proof.
  unfold aset. destruct (Z.ltb_spec (Z.of_nat n) 0); [lia|].
  cbn [elems]. now rewrite Nat2Z.id.
Qed.

Lemma lookup_alignment_in (name : str) :
  In (lookup name
        [(lit "l", lit "left"); (lit "c", lit "center"); (lit "r", lit "right")]
        (lit ""))
     alignments.
Proof.
  unfold lookup, alignments. cbn [own].
  repeat (destruct (str_eqb name _); [cbn [In]; tauto|]).
  cbn [In]. tauto.
Qed.

Ltac split_vars :=
  repeat first
    [ run_getBraces
    | match goal with
      | |- context [match ?o with Ok _ => _ | Throw _ => _ | OutOfFuel => _ end] =>
          is_var o; destruct o; sp
      | |- context [match matchDimen ?d with Some _ => _ | None => _ end] =>
          let E := fresh "Ev" in
          destruct (matchDimen d) as [[]|] eqn:E; sp
      | |- context [match ?v with Some _ => _ | None => _ end] =>
          is_var v; destruct v; sp
      end ].

Lemma columnHandler_slots (ch : str) (h : M unit) (st : ColumnState) :
  own ch columnHandler = Some h ->
  slots_ok st ->
  match snd (h st) with
  | Ok _ => slots_ok (fst (h st))
  | _ => True
  end.
Proof.
  intros H (Hj & Hc & Hw & Hl & Hs). apply own_In in H. unfold columnHandler in H.
  repeat (destruct H as [H|H]; [injection H as <- <-|]); try contradiction.
  all: unfold_handler; split_vars; try exact I.
  all: unfold slots_ok, alength in *; sp;
    rewrite ?Hj, ?elems_aset_nat, ?store_at_end, ?store_at_length, ?length_app;
    cbn [length].
  all: repeat split; try lia; try assumption.
  all: try (apply Forall_app; split; [assumption|]; constructor; [|constructor];
            eexists; split; [reflexivity|];
            first [apply lookup_alignment_in | cbn; tauto]).
  all: apply Forall_store_at; auto.
Qed.

Lemma scanLoop_slots (fuel : nat) (st : ColumnState) :
  slots_ok st -> length (template st) - i st <= fuel ->
  snd (scanLoop fuel st) = Ok tt -> slots_ok (fst (scanLoop fuel st)).
Proof.
  apply (scanLoop_inv slots_ok (fun st' o => o = Ok tt -> slots_ok st')).
  - auto.
  - discriminate.
  - intros st0 ch handler st' o Hs _ _ _ Ho Eh _.
    pose proof (columnHandler_slots ch handler _ Ho
                  (Hs : slots_ok (set_i (set_c st0 ch) (i st0 + length ch)))) as H.
    rewrite Eh in H. cbn [fst snd] in H. destruct o; try exact I; easy.
Qed.

Lemma initState_slots (t : str) (array : ArrayItem) : slots_ok (initState t array).
Proof. unfold slots_ok. cbn. repeat split; try constructor; lia. Qed.

Lemma Forall_Some {A : Type} (P : A -> Prop) (vs : list (option A)) :
  Forall (fun v => exists a, v = Some a /\ P a) vs ->
  exists l, vs = map Some l /\ Forall P l.
Proof.
  induction 1 as [|v vs (a & -> & Ha) _ (l & -> & Hl)].
  - now exists [].
  - exists (a :: l). split; [reflexivity | now constructor].
Qed.

Lemma Forall_removelast {A : Type} (P : A -> Prop) (l : list A) :
  Forall P l -> Forall P (removelast l).
Proof.
  induction 1 as [|x l Hx Hl IH]; [constructor|].
  destruct l; [constructor|]. cbn [removelast]. now constructor.
Qed.

Lemma Forall_skipn_1 {A : Type} (P : A -> Prop) (l : list A) :
  Forall P l -> Forall P (skipn 1 l).
Proof. intros [|x l' Hx Hl]; [constructor | exact Hl]. Qed.

Lemma length_removelast {A : Type} (l : list A) :
  length (removelast l) = length l - 1.
Proof.
  induction l as [|x l IH]; [reflexivity|].
  destruct l; [reflexivity|]. cbn [removelast length] in *. lia.
Qed.

Lemma scan_slots (t : str) (array : ArrayItem) (st : ColumnState) :
  scan t array = (st, Ok tt) ->
  slots_ok st /\ alength (calign st) = columns t array.
Proof.
  intros E. unfold scan in E.
  pose proof (scanLoop_slots (length t) (initState t array)
                (initState_slots t array)) as Hs.
  pose proof (scanLoop_count (length t) (initState t array)) as Hc.
  rewrite E in Hs, Hc. cbn [fst snd template i initState] in Hs, Hc.
  specialize (Hs ltac:(lia) eq_refl). specialize (Hc ltac:(lia) eq_refl).
  split; [exact Hs|]. destruct Hs as (Hj & _). unfold columns.
  rewrite Hj in Hc. cbn [j initState] in Hc. lia.
Qed.

(** X1.  A call of [process] that returns has set [columnalign] to one
    keyword for each column-producing specifier it dispatched, each of
    them ['left'], ['center'], ['right'] or the empty "unset" keyword. *)
Theorem columnalign_one_per_column (t : str) (array : ArrayItem) :
  snd (process t array) = Ok tt ->
  exists l,
    columnalign (arraydef (fst (process t array))) =
      Some (join (lit " ") (map Some l)) /\
    Forall (fun a => In a alignments) l /\
    length l = columns t array.
Proof.
  rewrite process_outcome. intros Ho.
  destruct (scan t array) as [st o] eqn:E. cbn [snd] in Ho. subst o.
  destruct (scan_slots t array st E) as ((Hj & Hc & _) & Hn).
  destruct (Forall_Some _ _ Hc) as (l & El & Hl).
  exists l. unfold process. rewrite E. cbn [fst].
  repeat split; [|assumption|].
  - unfold finalize. rewrite El.
    destruct (0 <? alength (cwidth st)), (0 <? alength (clines st)); reflexivity.
  - rewrite <- Hn. unfold alength. now rewrite El, length_map.
Qed.

(** ** Further properties: the entries of ralign *)

Lemma store_at_other {A : Type} (n n' : nat) (v : option A) (l : list (option A)) :
  n <> n' ->
  match nth_error (store_at n' v l) n with Some x => x | None => None end =
  match nth_error l n with Some x => x | None => None end.
Proof.
  revert n l; induction n' as [|n' IH]; intros [|n] [|x l] Hn; simpl;
    try reflexivity; try congruence;
    try (rewrite IH by congruence); try (destruct n; reflexivity).
Qed.

Lemma aget_aset_other {A : Type} (a : JSArray A) (k k' : Z) (v : option A) :
  k <> k' -> aget (aset a k' v) k = aget a k.
Proof.
  intros Hk. unfold aget, aset.
  destruct (Z.ltb_spec k' 0), (Z.ltb_spec k 0); cbn [elems props]; try reflexivity.
  - cbn [prop_of]. destruct (Z.eqb_spec k k'); [contradiction | reflexivity].
  - apply store_at_other. lia.
Qed.

Lemma wide_producing (ch : str) : wide ch = true -> producing ch = true.
Proof.
  unfold wide. cbn [existsb]. intros H. rewrite !orb_true_iff in H.
  repeat (destruct H as [H|H]; [apply str_eqb_eq in H; now subst|]).
  discriminate.
Qed.

Lemma columnHandler_ralign (ch : str) (h : M unit) (st : ColumnState) :
  own ch columnHandler = Some h ->
  (forall k, k <> j st -> aget (ralign (fst (h st))) k = aget (ralign st) k) /\
  if wide ch && is_ok (snd (h st)) then
    writes (ralign (fst (h st))) = writes (ralign st) ++ [j st] /\
    exists cls dim a,
      aget (ralign (fst (h st))) (j st) = Some (cls, dim, Some a) /\
      matchDimen dim = Some true /\ In a alignments
  else writes (ralign (fst (h st))) = writes (ralign st).
Proof.
  intros H. apply own_In in H. unfold columnHandler in H.
  repeat (destruct H as [H|H]; [injection H as <- <-|]); try contradiction.
  all: unfold_handler; split_vars;
    change (wide (lit "l")) with false; change (wide (lit "c")) with false;
    change (wide (lit "r")) with false; change (wide (lit "p")) with true;
    change (wide (lit "m")) with true; change (wide (lit "b")) with true;
    change (wide (lit "w")) with true; change (wide (lit "W")) with true;
    change (wide (lit "|")) with false; change (wide (lit ":")) with false;
    change (wide (lit ">")) with false; change (wide (lit "<")) with false;
    change (wide (lit "@")) with false; change (wide (lit "!")) with false;
    change (wide (lit " ")) with false;
    cbn [andb is_ok]; sp.
  all: split; [intros k Hk; rewrite ?aget_aset_other by assumption;
               reflexivity|].
  all: try reflexivity.
  all: rewrite writes_aset, !aget_aset_same.
  all: split; [reflexivity|]; do 3 eexists;
    (split; [reflexivity|]); split; [eassumption|].
  all: first [apply lookup_alignment_in | cbn; tauto].
Qed.

Lemma scanLoop_ralign (base : list Z) (fuel : nat) (st : ColumnState) :
  ((0 <= j st)%Z /\
   exists w, writes (ralign st) = base ++ w /\
     forall k, In k w ->
       (0 <= k < j st)%Z /\
       exists cls dim a,
         aget (ralign st) k = Some (cls, dim, Some a) /\
         matchDimen dim = Some true /\ In a alignments) ->
  length (template st) - i st <= fuel ->
  (fun st' (o : outcome unit) =>
     exists w, writes (ralign st') = base ++ w /\
       forall k, In k w ->
         exists cls dim a,
           aget (ralign st') k = Some (cls, dim, Some a) /\
           matchDimen dim = Some true /\ In a alignments)
    (fst (scanLoop fuel st)) (snd (scanLoop fuel st)).
Proof.
  apply (scanLoop_inv
           (fun st => (0 <= j st)%Z /\
              exists w, writes (ralign st) = base ++ w /\
                forall k, In k w ->
                  (0 <= k < j st)%Z /\
                  exists cls dim a,
                    aget (ralign st) k = Some (cls, dim, Some a) /\
                    matchDimen dim = Some true /\ In a alignments)
           (fun st' (o : outcome unit) =>
              exists w, writes (ralign st') = base ++ w /\
                forall k, In k w ->
                  exists cls dim a,
                    aget (ralign st') k = Some (cls, dim, Some a) /\
                    matchDimen dim = Some true /\ In a alignments)).
  - intros st0 (_ & w & Ew & Hw) _. exists w. split; [exact Ew|].
    intros k Hk. now apply Hw.
  - intros st0 ch (_ & w & Ew & Hw) _ _ _. exists w. split; [exact Ew|].
    intros k Hk. now apply Hw.
  - intros st0 ch handler st' o (Hj & w & Ew & Hw) _ _ _ Ho Eh He.
    pose proof (columnHandler_ralign ch handler
                  (set_i (set_c st0 ch) (i st0 + length ch)) Ho) as (Hother & Hr).
    rewrite Eh in Hother, Hr. cbn [fst snd] in Hother, Hr.
    destruct He as [_ _ _ _ _ Ej _ _ _]. sp.
    assert (Hold : forall k, In k w ->
              (0 <= k < j st0)%Z /\
              exists cls dim a,
                aget (ralign st') k = Some (cls, dim, Some a) /\
                matchDimen dim = Some true /\ In a alignments).
    { intros k Hk. destruct (Hw k Hk) as (Hb & Q). split; [exact Hb|].
      rewrite Hother by lia. exact Q. }
    destruct (wide ch) eqn:Ewide.
    + rewrite (wide_producing _ Ewide) in Ej.
      destruct o as [[]|e|]; cbn [andb is_ok] in *; [| |exact I].
      * destruct Hr as (Er & Q). split; [lia|].
        exists (w ++ [j st0]). rewrite Er, Ew, app_assoc. split; [reflexivity|].
        intros k Hk. apply in_app_or in Hk. destruct Hk as [Hk|[<-|[]]].
        -- destruct (Hold k Hk). split; [lia | assumption].
        -- split; [lia | exact Q].
      * exists w. rewrite Hr. split; [exact Ew|]. intros k Hk. now apply Hold.
    + cbn [andb] in Hr.
      destruct o as [[]|e|]; [| |exact I].
      * split; [destruct (producing ch); cbn [andb is_ok] in Ej; lia|].
        exists w. rewrite Hr. split; [exact Ew|]. intros k Hk.
        destruct (Hold k Hk). split; [|assumption].
        destruct (producing ch); cbn [andb is_ok] in Ej; lia.
      * exists w. rewrite Hr. split; [exact Ew|]. intros k Hk. now apply Hold.
Qed.

(** X4.  Whatever way a call of [process] ends, every entry it has put
    in [ralign] is a triple of a vertical class, a width that the
    dimension validator accepted and an alignment keyword. *)
Theorem ralign_entries_validated (t : str) (array : ArrayItem) :
  exists w,
    writes (item_ralign (fst (process t array))) =
      writes (item_ralign array) ++ w /\
    forall k, In k w ->
      exists cls dim a,
        aget (item_ralign (fst (process t array))) k = Some (cls, dim, Some a) /\
        matchDimen dim = Some true /\ In a alignments.
Proof.
  assert (E : item_ralign (fst (process t array)) = ralign (fst (scan t array))).
  { unfold process. destruct (scan t array) as [st [[]|e|]]; try reflexivity.
    unfold finalize. cbn [fst].
    destruct (0 <? alength (clines st)); reflexivity. }
  rewrite E. unfold scan.
  apply (scanLoop_ralign (writes (item_ralign array)) (length t) (initState t array)).
  - cbn. split; [lia|]. exists []. rewrite app_nil_r. split; [reflexivity|].
    intros k [].
  - cbn. lia.
Qed.

(** ** Further properties: the widths and the lines, by the specifiers dispatched *)

Lemma producing_not_line (ch : str) :
  producing ch = true ->
  str_eqb ch (lit "|") = false /\ str_eqb ch (lit ":") = false.
Proof.
  unfold producing. cbn [existsb]. intros H. rewrite !orb_true_iff in H.
  repeat (destruct H as [H|H]; [apply str_eqb_eq in H; now subst|]).
  discriminate.
Qed.

Ltac eval_flags :=
  repeat match goal with
         | |- context [wide ?x] =>
             let b := eval vm_compute in (wide x) in change (wide x) with b
         | |- context [is_line ?x] =>
             let b := eval vm_compute in (is_line x) in change (is_line x) with b
         | |- context [str_eqb ?x (lit "|")] =>
             let b := eval vm_compute in (str_eqb x (lit "|")) in
             change (str_eqb x (lit "|")) with b
         end;
  cbv iota; cbn [andb].

Lemma columnHandler_spans (ch : str) (h : M unit) (st : ColumnState) :
  own ch columnHandler = Some h ->
  slots_ok st ->
  Forall (fun v => v = None \/ matchDimen v = Some true) (elems (cwidth st)) ->
  match snd (h st) with
  | Ok _ =>
      alength (cwidth (fst (h st))) =
        (if wide ch then S (alength (calign st)) else alength (cwidth st)) /\
      alength (clines (fst (h st))) =
        (if is_line ch then S (alength (calign st)) else alength (clines st)) /\
      first_line (fst (h st)) =
        (if is_line ch && (alength (calign st) =? 0)
         then (if str_eqb ch (lit "|")
               then Some (lit "solid") else Some (lit "dashed"))
         else first_line st) /\
      Forall (fun v => v = None \/ matchDimen v = Some true)
             (elems (cwidth (fst (h st))))
  | _ => True
  end.
Proof.
  intros H (Hj & Hc & Hw & Hl & Hs) Hv. apply own_In in H.
  unfold columnHandler in H.
  repeat (destruct H as [H|H]; [injection H as <- <-|]); try contradiction.
  all: unfold_handler; split_vars; try exact I.
  all: eval_flags; unfold alength, first_line in *; sp.
  all: rewrite ?Hj, ?elems_aset_nat, ?store_at_length.
  all: split; [try reflexivity; lia|]; split; [try reflexivity; lia|]; split.
  all: try reflexivity; try assumption.
  all: try (apply Forall_store_at; [now left | now right | assumption]).
  all: destruct (Nat.eqb_spec (length (elems (calign st))) 0) as [E|E];
    [rewrite E; now rewrite store_at_same | apply store_at_other; lia].
Qed.

Lemma scanLoop_spans (fuel : nat) :
  forall st,
    slots_ok st ->
    Forall (fun v => v = None \/ matchDimen v = Some true) (elems (cwidth st)) ->
    length (template st) - i st <= fuel ->
    snd (scanLoop fuel st) = Ok tt ->
    alength (cwidth (fst (scanLoop fuel st))) =
      (if 0 <? width_span (dispatched fuel st)
       then alength (calign st) + width_span (dispatched fuel st)
       else alength (cwidth st)) /\
    alength (clines (fst (scanLoop fuel st))) =
      (if 0 <? line_span (dispatched fuel st)
       then alength (calign st) + line_span (dispatched fuel st)
       else alength (clines st)) /\
    first_line (fst (scanLoop fuel st)) =
      (if alength (calign st) =? 0
       then left_line (first_line st) (dispatched fuel st)
       else first_line st) /\
    Forall (fun v => v = None \/ matchDimen v = Some true)
           (elems (cwidth (fst (scanLoop fuel st)))).
Proof.
  induction fuel as [|fuel IH]; intros st Hsl Hv Hf;
    rewrite scanLoop_eq, dispatched_eq;
    destruct (Nat.ltb_spec (i st) (length (template st))) as [Hlt|Hlt];
    try solve [intros _; cbn [fst width_span line_span left_line];
               change (0 <? 0) with false; cbv iota;
               destruct (alength (calign st) =? 0); auto];
    try lia.
  destruct (codePointStr_in_range _ _ Hlt) as (ch & Hch & Hc1 & Hc2).
  rewrite Hch. pose proof (step_eq st) as Es. rewrite Hch in Es. cbn zeta in Es.
  destruct (own ch columnHandler) as [handler|] eqn:Ho;
    [|rewrite Es; discriminate].
  pose proof (columnHandler_effect ch handler
                (set_i (set_c st ch) (i st + length ch)) Ho) as He.
  pose proof (columnHandler_slots ch handler _ Ho
                (Hsl : slots_ok (set_i (set_c st ch) (i st + length ch)))) as Hsl'.
  pose proof (columnHandler_spans ch handler _ Ho
                (Hsl : slots_ok (set_i (set_c st ch) (i st + length ch)))
                Hv) as Hsp.
  rewrite <- Es in He, Hsl', Hsp. destruct (step st) as [st' o].
  cbn [fst snd] in He, Hsl', Hsp.
  destruct He as [Ht _ Hi _ _ Ej _ _ _]. sp.
  destruct o as [[]|e|]; try discriminate.
  intros Hok.
  destruct Hsp as (Sw & Sl & Sf & Sv).
  assert (Hn : alength (calign st') =
               if producing ch then S (alength (calign st))
               else alength (calign st)).
  { destruct Hsl as (Hj & _), Hsl' as (Hj' & _).
    rewrite Hj, Hj' in Ej. destruct (producing ch); cbn [andb is_ok] in Ej; lia. }
  destruct (IH st' Hsl' Sv ltac:(rewrite Ht; lia) Hok) as (Iw & Il & If & Iv).
  rewrite Iw, Il, If, Sw, Sl, Sf, Hn. clear Iw Il If Sw Sl Sf.
  cbn [width_span line_span left_line]. unfold is_line.
  split; [|split; [|split; [|exact Iv]]].
  - destruct (width_span (dispatched fuel st')) as [|w];
      destruct (wide ch) eqn:Ew;
      rewrite ?(wide_producing _ Ew);
      destruct (producing ch);
      cbn [Nat.ltb Nat.leb]; try reflexivity; lia.
  - destruct (line_span (dispatched fuel st')) as [|w];
      destruct (producing ch) eqn:Ep;
      try (destruct (producing_not_line _ Ep) as (-> & ->));
      destruct (str_eqb ch (lit "|") || str_eqb ch (lit ":"));
      cbn [Nat.ltb Nat.leb Nat.max]; try reflexivity; lia.
  - destruct (producing ch) eqn:Ep.
    + destruct (producing_not_line _ Ep) as (-> & ->). cbn [orb andb].
      change (S (alength (calign st)) =? 0) with false. cbv iota.
      now destruct (alength (calign st) =? 0).
    + destruct (alength (calign st) =? 0); rewrite ?andb_false_r, ?andb_true_r;
        [|reflexivity].
      destruct (str_eqb ch (lit "|")); [reflexivity|]. cbn [orb].
      now destruct (str_eqb ch (lit ":")).
Qed.

Lemma scan_spans (t : str) (array : ArrayItem) (st : ColumnState) :
  scan t array = (st, Ok tt) ->
  alength (cwidth st) = width_span (dispatched (length t) (initState t array)) /\
  alength (clines st) = line_span (dispatched (length t) (initState t array)) /\
  first_line st = left_line None (dispatched (length t) (initState t array)) /\
  Forall (fun v => v = None \/ matchDimen v = Some true) (elems (cwidth st)).
Proof.
  intros E. unfold scan in E.
  pose proof (scanLoop_spans (length t) (initState t array)
                (initState_slots t array)) as H.
  rewrite E in H. cbn [fst snd] in H.
  destruct H as (Hw & Hl & Hf & Hv);
    [constructor | cbn; lia | reflexivity |].
  change (alength (calign (initState t array))) with 0 in *.
  change (alength (cwidth (initState t array))) with 0 in *.
  change (alength (clines (initState t array))) with 0 in *.
  change (first_line (initState t array)) with (@None str) in *.
  cbn [Nat.eqb Nat.add] in *.
  split; [|split; [|split; [exact Hf | exact Hv]]].
  - rewrite Hw. now destruct (width_span _).
  - rewrite Hl. now destruct (line_span _).
Qed.

(** X2.  A call of [process] that returns leaves [columnwidth] as it
    was when no specifier that takes a width was dispatched.  Otherwise
    it sets it to the space-joined list of one entry for each column up
    to the last one that takes a width, and one more when further
    columns follow; each entry is ['auto'] or a non-empty width that
    the validator accepted. *)
Theorem columnwidth_entries (t : str) (array : ArrayItem) :
  snd (process t array) = Ok tt ->
  let ds := dispatched (length t) (initState t array) in
  if width_span ds =? 0
  then columnwidth (arraydef (fst (process t array))) =
       columnwidth (arraydef array)
  else exists l,
      columnwidth (arraydef (fst (process t array))) =
        Some (join (lit " ") (map Some l)) /\
      length l = Nat.min (S (width_span ds)) (columns t array) /\
      Forall (fun x => x = lit "auto" \/
                       (x <> [] /\ matchDimen (Some x) = Some true)) l.
Proof.
  rewrite process_outcome. intros Ho. cbv zeta.
  destruct (scan t array) as [st o] eqn:E. cbn [snd] in Ho. subst o.
  destruct (scan_slots t array st E) as ((_ & _ & Hw & _) & Hn).
  destruct (scan_spans t array st E) as (Hm & _ & _ & Hv).
  rewrite <- Hm, <- Hn. clear Hm Hn.
  unfold process. rewrite E. cbn [fst]. unfold finalize.
  unfold alength in *.
  set (m := length (elems (cwidth st))) in *.
  set (n := length (elems (calign st))) in *.
  destruct (Nat.eqb_spec m 0) as [Em|Em].
  { rewrite Em. change (0 <? 0) with false. cbv iota.
    destruct (0 <? length (elems (clines st))); reflexivity. }
  replace (0 <? m) with true by (symmetry; apply Nat.ltb_lt; lia).
  exists (map (fun w => or_else w (lit "auto"))
            (if m <? n
             then elems (cwidth st) ++ [Some (lit "auto")]
             else elems (cwidth st))).
  split; [|split].
  - rewrite map_map.
    destruct (0 <? length (elems (clines st))); reflexivity.
  - rewrite length_map.
    destruct (Nat.ltb_spec m n); rewrite ?length_app; cbn [length];
      subst m n; unfold value in *; lia.
  - assert (Hmap : Forall (fun x => x = lit "auto" \/
                                   (x <> [] /\ matchDimen (Some x) = Some true))
                     (map (fun w => or_else w (lit "auto")) (elems (cwidth st)))).
    { apply Forall_map. eapply Forall_impl; [|exact Hv]. cbn beta.
      intros [[|u w]|] Hx; cbn [or_else]; try (now left).
      right. split; [discriminate|]. now destruct Hx. }
    destruct (m <? n); [|exact Hmap].
    rewrite map_app. apply Forall_app. split; [exact Hmap|].
    constructor; [now left | constructor].
Qed.

(** X3.  A call of [process] that returns leaves [columnlines], [frame]
    and [dashed] as they were when no border specifier was dispatched.
    Otherwise, with [n] the number of columns and [c] one more than the
    number of columns before the last border specifier: [columnlines]
    is set to [min c (n - 1)] entries, each ['solid'], ['dashed'] or
    ['none']; ['left'] is appended to [frame] when a border specifier
    comes before the first column, and [dashed] is then whether the
    last such specifier is [:]; ['right'] is appended after it when the
    last border specifier comes after the last column. *)
Theorem columnlines_and_frame (t : str) (array : ArrayItem) :
  snd (process t array) = Ok tt ->
  let r := fst (process t array) in
  let ds := dispatched (length t) (initState t array) in
  let n := columns t array in
  let c := line_span ds in
  let left := left_line None ds in
  if c =? 0
  then columnlines (arraydef r) = columnlines (arraydef array) /\
       frame r = frame array /\ dashed r = dashed array
  else
    (exists l,
        columnlines (arraydef r) = Some (join (lit " ") (map Some l)) /\
        Forall (fun s => In s line_styles) l /\
        length l = Nat.min c (n - 1)) /\
    frame r = frame array ++
              (if truthy left then [lit "left"] else []) ++
              (if n <? c then [lit "right"] else []) /\
    dashed r = (if truthy left then strict_eq left (lit "dashed")
                else dashed array).
Proof.
  rewrite process_outcome. intros Ho. cbv zeta.
  destruct (scan t array) as [st o] eqn:E. cbn [snd] in Ho. subst o.
  destruct (scan_slots t array st E) as ((_ & _ & _ & Hl & Hs) & Hn).
  destruct (scan_spans t array st E) as (_ & Hc & Hf & _).
  rewrite <- Hc, <- Hf, <- Hn. clear Hc Hf Hn.
  unfold process. rewrite E. cbn [fst]. unfold finalize, first_line.
  unfold alength in *.
  set (n := length (elems (calign st))) in *.
  set (cl := elems (clines st)) in *.
  destruct (Nat.eqb_spec (length cl) 0) as [Ec|Ec].
  { rewrite Ec. change (0 <? 0) with false. cbv iota.
    destruct (0 <? length (elems (cwidth st))); auto. }
  replace (0 <? length cl) with true by (symmetry; apply Nat.ltb_lt; lia).
  set (cl1 := if n <? length cl then removelast cl
              else if length cl <? n then cl ++ [Some (lit "none")] else cl).
  assert (Hcl1 : Forall (fun v => v = None \/ v = Some (lit "solid") \/
                                  v = Some (lit "dashed") \/ v = Some (lit "none"))
                        cl1).
  { assert (H0 : Forall (fun v => v = None \/ v = Some (lit "solid") \/
                                  v = Some (lit "dashed") \/ v = Some (lit "none"))
                        cl)
      by (eapply Forall_impl; [|exact Hs]; cbn beta; tauto).
    subst cl1. destruct (n <? length cl); [now apply Forall_removelast|].
    destruct (length cl <? n); [|assumption].
    apply Forall_app. split; [assumption|]. constructor; [tauto | constructor]. }
  assert (Hlen : length (skipn 1 cl1) = Nat.min (length cl) (n - 1)).
  { rewrite length_skipn. subst cl1.
    destruct (Nat.ltb_spec n (length cl)); cbv iota;
      [rewrite length_removelast; lia|].
    destruct (Nat.ltb_spec (length cl) n); cbv iota;
      rewrite ?length_app; cbn [length]; lia. }
  split; [|split].
  - exists (map (fun v => or_else v (lit "none")) (skipn 1 cl1)).
    split; [|split].
    + rewrite map_map. destruct (0 <? length (elems (cwidth st))); reflexivity.
    + apply Forall_map. apply Forall_skipn_1 in Hcl1.
      eapply Forall_impl; [|exact Hcl1]. cbn beta.
      intros v [-> | [-> | [-> | ->]]]; cbn; tauto.
    + now rewrite length_map.
  - destruct (0 <? length (elems (cwidth st)));
      cbn [frame]; destruct (truthy _), (n <? length cl);
      cbn [app]; rewrite <- ?app_assoc, ?app_nil_r; reflexivity.
  - destruct (0 <? length (elems (cwidth st))); cbn [dashed];
      destruct (truthy _); reflexivity.
Qed.

(** ** Further properties: columns with an alignment argument *)

Lemma lower_unit (u k : N) :
  (97 <= k <= 122)%N ->
  N.eqb (if (65 <=? u)%N && (u <=? 90)%N then (u + 32)%N else u) k =
  N.eqb u k || N.eqb u (k - 32).
Proof.
  intros Hk.
  destruct (N.leb_spec 65 u), (N.leb_spec u 90); cbn [andb];
    destruct (N.eqb_spec u k), (N.eqb_spec u (k - 32)); cbn [orb];
    try (apply N.eqb_eq; lia); try (apply N.eqb_neq; lia); try lia.
Qed.

Lemma getAlign_lookup (a : str) :
  lookup (toLowerCase a)
    [(lit "l", lit "left"); (lit "c", lit "center"); (lit "r", lit "right")]
    (lit "") = column_alignment a.
Proof.
  destruct a as [|u [|v a]]; [reflexivity| |].
  - unfold lookup, column_alignment, toLowerCase. cbn [map own].
    rewrite !str_eqb_unit. unfold is_char.
    rewrite (lower_unit u (N_of_ascii "l")), (lower_unit u (N_of_ascii "c")),
      (lower_unit u (N_of_ascii "r")) by (cbn; lia).
    change (N_of_ascii "l" - 32)%N with (N_of_ascii "L").
    change (N_of_ascii "c" - 32)%N with (N_of_ascii "C").
    change (N_of_ascii "r" - 32)%N with (N_of_ascii "R").
    repeat (destruct (_ || _); [reflexivity|]). reflexivity.
  - unfold lookup, column_alignment, toLowerCase. cbn [map own].
    cbn [lit list_ascii_of_string map str_eqb].
    rewrite !andb_false_r. reflexivity.
Qed.

(** X5.  When the loop reads [w] or [W], the first argument that
    follows chooses the alignment, whatever its case, and the second is
    the width: if the validator accepts it, the turn stores the triple
    of [VTOP], the width and the alignment in [ralign], the alignment
    in [calign] and the width in [cwidth], all at the column index, and
    adds one to [j]; if the validator rejects it, the turn raises
    [MissingColumnDimOrUnits] naming the specifier.  When the template
    ends before the first argument, the turn ends in a [TypeError]. *)
Theorem aligned_column :
  (forall st st1 st2 ch a dim,
     codePointStr (template st) (i st) = Some ch ->
     ch = lit "w" \/ ch = lit "W" ->
     getBraces (set_i (set_c st ch) (i st + 1)) = (st1, Ok (Some a)) ->
     getBraces st1 = (st2, Ok dim) ->
     (matchDimen dim = Some true ->
      exists st3,
        step st = (st3, Ok tt) /\
        aget (ralign st3) (j st) = Some (VTOP, dim, Some (column_alignment a)) /\
        aget (calign st3) (j st) = Some (column_alignment a) /\
        aget (cwidth st3) (j st) = dim /\
        j st3 = (j st + 1)%Z /\ i st3 = i st2) /\
     (matchDimen dim = Some false ->
      exists st3,
        step st = (st3, Throw (TexError MissingColumnDimOrUnits (Some ch))))) /\
  (forall st st1 ch,
     codePointStr (template st) (i st) = Some ch ->
     ch = lit "w" \/ ch = lit "W" ->
     getBraces (set_i (set_c st ch) (i st + 1)) = (st1, Ok None) ->
     step st = (st1, Throw TypeError)).
Proof.
  split.
  - intros st st1 st2 ch a dim Hch Hw G1 G2.
    assert (Ho : own ch columnHandler = Some (getColumn VTOP (Some (lit ""))) /\
                 length ch = 1)
      by (destruct Hw as [-> | ->]; now split).
    destruct Ho as (Ho & Hlen).
    rewrite step_eq, Hch. cbn zeta. rewrite Ho, Hlen.
    unfold_handler. rewrite G1. sp. rewrite getAlign_lookup.
    pose proof (getBraces_only_i _ _ _ G1) as S1.
    match goal with
    | |- context [getBraces ?s] =>
        destruct (getBraces_shape s st1 eq_refl eq_refl eq_refl)
          as (k & o & E1 & E2)
    end.
    rewrite E1. rewrite E2 in G2. injection G2 as <- ->. sp.
    rewrite S1. sp.
    split; intros ->.
    + eexists. split; [reflexivity|]. sp. rewrite !aget_aset_same. auto.
    + eexists. reflexivity.
  - intros st st1 ch Hch Hw G1.
    assert (Ho : own ch columnHandler = Some (getColumn VTOP (Some (lit ""))) /\
                 length ch = 1)
      by (destruct Hw as [-> | ->]; now split).
    destruct Ho as (Ho & Hlen).
    rewrite step_eq, Hch. cbn zeta. rewrite Ho, Hlen.
    unfold_handler. now rewrite G1.
Qed.

(** ** Further properties: brace groups *)

Lemma getBraces_braced (st : ColumnState) (n : nat) (body : str) :
  skipn (i st) (template st) = repeat SPACE n ++ N_of_ascii "{" :: body ->
  match closing 1 body with
  | Some m =>
      getBraces st =
      (set_i st (i st + n + 1 + m), Ok (Some (firstn (m - 1) body)))
  | None =>
      exists k, getBraces st =
                (set_i st k, Throw (TexError MissingCloseBrace None))
  end.
Proof.
  intros Hs.
  destruct (cursor_split _ _ _ Hs) as (Ht & Hi).
  { destruct n; discriminate. }
  set (pre := firstn (i st) (template st)) in *.
  set (u := N_of_ascii "{") in *.
  assert (Ht' : template st = (pre ++ repeat SPACE n) ++ u :: body)
    by (now rewrite <- app_assoc).
  assert (Hl : length (pre ++ repeat SPACE n) = i st + n)
    by (now rewrite length_app, repeat_length, Hi).
  assert (Hidx : index (template st) (i st + n) = Some [u]).
  { unfold index. now rewrite Ht', <- Hl, nth_error_cursor. }
  assert (Hh : hd_error (u :: body) <> Some SPACE) by discriminate.
  assert (Hn : n <= length (template st))
    by (rewrite Ht', !length_app, repeat_length; lia).
  rewrite getBraces_eq.
  rewrite (skipSpaces_run n pre (u :: body) st _ Ht (eq_sym Hi) Hh Hn).
  sp. rewrite Hi.
  replace (length (template st) <? i st + n) with false
    by (symmetry; apply Nat.ltb_ge; rewrite Ht', length_app; simpl; lia).
  rewrite Hidx. change (negb (strict_eq (Some [u]) (lit "{"))) with false.
  cbv iota.
  pose proof (scanBraces_closing (length (template st)) body
                ((pre ++ repeat SPACE n) ++ [u])
                (set_i st (S (i st + n))) (S (i st + n)) 1) as H.
  sp. rewrite length_app, Hl in H. cbn [length] in H.
  rewrite <- app_assoc in H. specialize (H Ht' ltac:(lia)).
  assert (Hb : length body <= length (template st))
    by (rewrite Ht', length_app; simpl; lia).
  specialize (H Hb (le_n 1)). change (Z.of_nat 1) with 1%Z in H.
  destruct (closing 1 body) as [m|].
  - destruct H as (H & Hm). rewrite set_i_set_i, H.
    do 3 f_equal. unfold slice. rewrite Ht'.
    replace (S (i st + n)) with (length ((pre ++ repeat SPACE n) ++ [u]))
      by (rewrite length_app, Hl; simpl; lia).
    replace ((pre ++ repeat SPACE n) ++ u :: body)
      with (((pre ++ repeat SPACE n) ++ [u]) ++ body)
      by (now rewrite <- app_assoc).
    rewrite skipn_app, skipn_all, Nat.sub_diag. cbn [app skipn].
    f_equal. rewrite length_app, Hl. simpl. lia.
  - destruct H as (k & H). exists k. now rewrite set_i_set_i, H.
Qed.

Lemma closing_app (n : nat) :
  forall s d d' rest,
    length s <= n ->
    brace_depth d s = Some d' ->
    closing (S d) (s ++ rest) =
    option_map (fun m => length s + m) (closing (S d') rest).
Proof.
  induction n as [|n IH]; intros s d d' rest Hn Hd.
  { destruct s; [|simpl in Hn; lia]. injection Hd as <-.
    cbn [app length]. now destruct (closing (S d) rest). }
  destruct s as [|u s].
  { injection Hd as <-. cbn [app length]. now destruct (closing (S d) rest). }
  cbn [app closing brace_depth length] in *.
  destruct (is_char u "\").
  { destruct s as [|v s]; [discriminate|]. cbn [app length] in *.
    rewrite (IH s d d' rest) by (try lia; assumption).
    now destruct (closing (S d') rest). }
  destruct (is_char u "{").
  { rewrite (IH s (S d) d' rest) by (try lia; assumption).
    now destruct (closing (S d') rest). }
  destruct (is_char u "}").
  { destruct d as [|d]; [discriminate|].
    rewrite (IH s d d' rest) by (try lia; assumption).
    now destruct (closing (S d') rest). }
  rewrite (IH s d d' rest) by (try lia; assumption).
  now destruct (closing (S d') rest).
Qed.

Lemma closing_split (n : nat) :
  forall body d m,
    length body <= n ->
    closing (S d) body = Some m ->
    exists s rest,
      body = s ++ N_of_ascii "}" :: rest /\ m = length s + 1 /\
      brace_depth d s = Some 0.
Proof.
  induction n as [|n IH]; intros body d m Hn Hc.
  { destruct body; [discriminate | simpl in Hn; lia]. }
  destruct body as [|u body]; [discriminate|].
  cbn [closing length] in *.
  assert (Hrec : forall q body' d0 m0,
    length body' <= n ->
    closing (S d0) body' = Some m0 ->
    (forall s, brace_depth d (q ++ s) = brace_depth d0 s) ->
    exists s rest,
      q ++ body' = s ++ N_of_ascii "}" :: rest /\
      length q + m0 = length s + 1 /\ brace_depth d s = Some 0).
  { intros q body' d0 m0 Hl Hc' Hq.
    destruct (IH body' d0 m0 Hl Hc') as (s & rest & -> & -> & Hs).
    exists (q ++ s), rest. rewrite <- app_assoc, length_app, Hq.
    repeat split; [lia | assumption]. }
  destruct (is_char u "\") eqn:E1.
  { destruct body as [|v body]; [discriminate|].
    destruct (closing (S d) body) as [m0|] eqn:Ec; [|discriminate].
    injection Hc as <-.
    apply (Hrec [u; v] body d m0); [simpl in Hn; lia | assumption|].
    intros s. cbn [app brace_depth]. now rewrite E1. }
  destruct (is_char u "{") eqn:E2.
  { destruct (closing (S (S d)) body) as [m0|] eqn:Ec; [|discriminate].
    injection Hc as <-.
    apply (Hrec [u] body (S d) m0); [lia | assumption|].
    intros s. cbn [app brace_depth]. now rewrite E1, E2. }
  destruct (is_char u "}") eqn:E3.
  { destruct d as [|d].
    - injection Hc as <-. exists [], body. repeat split.
      unfold is_char in E3. apply N.eqb_eq in E3. now subst.
    - destruct (closing (S d) body) as [m0|] eqn:Ec; [|discriminate].
      injection Hc as <-.
      apply (Hrec [u] body d m0); [lia | assumption|].
      intros s. cbn [app brace_depth]. now rewrite E1, E2, E3. }
  destruct (closing (S d) body) as [m0|] eqn:Ec; [|discriminate].
  injection Hc as <-.
  apply (Hrec [u] body d m0); [lia | assumption|].
  intros s. cbn [app brace_depth]. now rewrite E1, E2, E3.
Qed.

(** X6.  Reading back a brace group: with a text [s] of balanced braces
    between an opening and a closing brace at the cursor, after any
    number of spaces, [getBraces] returns exactly [s] and leaves the
    cursor after the closing brace. *)
Theorem getBraces_round_trip (st : ColumnState) (n : nat) (s rest : str) :
  skipn (i st) (template st) =
    repeat SPACE n ++ N_of_ascii "{" :: s ++ N_of_ascii "}" :: rest ->
  balanced s ->
  getBraces st = (set_i st (i st + n + length s + 2), Ok (Some s)).
Proof.
  intros Hs Hb.
  pose proof (getBraces_braced st n _ Hs) as H.
  rewrite (closing_app (length s) s 0 0 _ (le_n _) Hb) in H.
  cbn [closing] in H.
  change (is_char (N_of_ascii "}") "\") with false in H.
  change (is_char (N_of_ascii "}") "{") with false in H.
  change (is_char (N_of_ascii "}") "}") with true in H.
  cbn [option_map] in H. rewrite H. f_equal; [f_equal; lia|].
  do 2 f_equal.
  replace (length s + 1 - 1) with (length s + 0) by lia.
  now rewrite firstn_app_2, app_nil_r.
Qed.

(** X7.  What [getBraces] returns from a brace group is the text up to
    the first closing brace that balances the opening one: the text
    has balanced braces, the template has it between the two braces,
    and the cursor is left after the closing one. *)
Theorem getBraces_argument_balanced
        (st st' : ColumnState) (n : nat) (body s : str) :
  skipn (i st) (template st) = repeat SPACE n ++ N_of_ascii "{" :: body ->
  getBraces st = (st', Ok (Some s)) ->
  balanced s /\
  exists rest,
    body = s ++ N_of_ascii "}" :: rest /\
    i st' = i st + n + length s + 2.
Proof.
  intros Hs G.
  pose proof (getBraces_braced st n _ Hs) as H.
  destruct (closing 1 body) as [m|] eqn:Ec.
  2: { destruct H as (k & H). rewrite H in G. discriminate. }
  rewrite H in G. injection G as <- <-.
  destruct (closing_split (length body) body 0 m (le_n _) Ec)
    as (s0 & rest & -> & -> & Hb).
  replace (length s0 + 1 - 1) with (length s0 + 0) by lia.
  rewrite firstn_app_2, app_nil_r. split; [exact Hb|].
  exists rest. split; [reflexivity|]. cbn [i set_i]. lia.
Qed.

(** ** Further properties: the end of the template *)

Lemma strict_eq_unit (t : str) (k : nat) (a : ascii) :
  strict_eq (index t k) (lit (String a EmptyString)) = true ->
  nth_error t k = Some (N_of_ascii a).
Proof.
  unfold index. destruct (nth_error t k) as [u|]; [|discriminate].
  cbn [option_map strict_eq]. rewrite str_eqb_unit. unfold is_char.
  intros H. apply N.eqb_eq in H. now subst.
Qed.

Lemma skipn_cursor {A : Type} (t : list A) (k : nat) (u : A) :
  nth_error t k = Some u -> skipn k t = u :: skipn (S k) t.
Proof.
  revert k; induction t as [|x t IH]; intros [|k]; simpl; try discriminate.
  - now intros [= ->].
  - apply IH.
Qed.

Lemma skipSpaces_spaces (fuel : nat) (st st' : ColumnState) (o : outcome unit) :
  skipSpaces fuel st = (st', o) ->
  skipn (i st) (template st) =
  repeat SPACE (i st' - i st) ++ skipn (i st') (template st).
Proof.
  revert st; induction fuel as [|fuel IH]; intros st; rewrite skipSpaces_eq;
    destruct (strict_eq _ _) eqn:E;
    try (intros [= <- <-]; now rewrite Nat.sub_diag).
  intros H. pose proof (skipSpaces_props _ _ _ _ H) as (Hi & _).
  apply IH in H. sp. apply strict_eq_unit in E.
  rewrite (skipn_cursor _ _ _ E), H.
  replace (i st' - i st) with (S (i st' - S (i st))) by lia. reflexivity.
Qed.

Lemma Forall_repeat_eq {A : Type} (x : A) (l : list A) :
  Forall (fun u => u = x) l <-> l = repeat x (length l).
Proof.
  split.
  - induction 1 as [|u l -> _ IH]; simpl; [reflexivity | now rewrite <- IH].
  - intros ->. apply Forall_forall. intros u Hu. now apply repeat_spec in Hu.
Qed.

Lemma getBraces_spaces (st : ColumnState) (n : nat) :
  i st <= length (template st) ->
  skipn (i st) (template st) = repeat SPACE n ->
  getBraces st = (set_i st (S (length (template st))), Ok None).
Proof.
  intros Hi Hs.
  assert (Hn : length (template st) = i st + n).
  { apply (f_equal (@length N)) in Hs.
    rewrite length_skipn, repeat_length in Hs. lia. }
  assert (Ht : template st = firstn (i st) (template st) ++ repeat SPACE n ++ [])
    by (now rewrite app_nil_r, <- Hs, firstn_skipn).
  rewrite getBraces_eq.
  rewrite (skipSpaces_run n (firstn (i st) (template st)) [] st _ Ht);
    [ | now rewrite firstn_length_le | discriminate | lia ].
  rewrite firstn_length_le, <- Hn by exact Hi. sp.
  rewrite Nat.ltb_irrefl. unfold index.
  now rewrite (proj2 (nth_error_None _ _) (le_n _)), set_i_set_i.
Qed.

Lemma scanBraces_defined (fuel start : nat) (braces : Z)
      (st st' : ColumnState) (v : value) :
  scanBraces fuel start braces st = (st', Ok v) -> v <> None.
Proof.
  revert braces st; induction fuel as [|fuel IH]; intros braces st;
    rewrite scanBraces_eq; destruct (i st <? length (template st));
    try (intros [= _ E]; discriminate E).
  cbn zeta.
  destruct (str_eqb _ (lit "\")); [apply IH|].
  destruct (str_eqb _ (lit "{")); [apply IH|].
  destruct (str_eqb _ (lit "}")); [|apply IH].
  destruct (braces - 1 =? 0)%Z; [|apply IH].
  intros [= _ <-] E. discriminate E.
Qed.

Lemma getBraces_undefined (st st' : ColumnState) :
  getBraces st = (st', Ok None) ->
  Forall (fun u => u = SPACE) (skipn (i st) (template st)).
Proof.
  rewrite getBraces_eq.
  destruct (skipSpaces _ st) as [st1 o1] eqn:E1.
  pose proof (skipSpaces_only_i _ _ _ _ E1) as S1.
  pose proof (skipSpaces_spaces _ _ _ _ E1) as Hsp.
  destruct o1 as [[]|e|]; try discriminate.
  rewrite S1. cbn [template i c set_i].
  destruct (length (template st) <? i st1); [discriminate|].
  destruct (negb _).
  - intros [= _ H]. unfold index in H.
    destruct (nth_error (template st) (i st1)) eqn:En; [discriminate|].
    apply nth_error_None in En. rewrite Hsp, (skipn_all2 _ En), app_nil_r.
    apply Forall_forall. intros u Hu. now apply repeat_spec in Hu.
  - intros H. apply scanBraces_defined in H. now contradiction H.
Qed.

(** X8.  With the cursor inside the template or at its end, [getBraces]
    returns [undefined] exactly when only spaces are left (none at all
    included); it then leaves the cursor one past the end of the
    template, and does not signal a missing argument. *)
Theorem getBraces_undefined_iff (st : ColumnState) :
  i st <= length (template st) ->
  (Forall (fun u => u = SPACE) (skipn (i st) (template st)) <->
   exists st', getBraces st = (st', Ok None)) /\
  (forall st', getBraces st = (st', Ok None) ->
     st' = set_i st (S (length (template st)))).
Proof.
  intros Hi.
  assert (Hfw : Forall (fun u => u = SPACE) (skipn (i st) (template st)) ->
                getBraces st = (set_i st (S (length (template st))), Ok None)).
  { intros H. apply Forall_repeat_eq in H.
    now apply (getBraces_spaces st _ Hi H). }
  split; [split|].
  - intros H. eexists. now apply Hfw.
  - intros (st' & H). now apply getBraces_undefined in H.
  - intros st' H. pose proof (getBraces_undefined _ _ H) as Hs.
    rewrite (Hfw Hs) in H. now injection H as <-.
Qed.

(** ** Further properties: what the errors tell *)


Ltac keep_getBraces :=
  match goal with
  | |- context [getBraces ?s] =>
      let G := fresh "G" in
      let st1 := fresh "st" in
      let o1 := fresh "o" in
      destruct (getBraces s) as [st1 o1] eqn:G;
      let S1 := fresh "S" in
      pose proof (getBraces_only_i _ _ _ G) as S1;
      let P := fresh "P" in
      pose proof (getBraces_props _ _ _ G) as P; sp;
      rewrite S1 in *; clear S1; sp
  end.

Ltac split_keep :=
  repeat first
    [ keep_getBraces
    | match goal with
      | |- context [match ?o with Ok _ => _ | Throw _ => _ | OutOfFuel => _ end] =>
          is_var o; destruct o; sp
      | |- context [match matchDimen ?d with Some _ => _ | None => _ end] =>
          let E := fresh "Ev" in
          destruct (matchDimen d) as [[]|] eqn:E; sp
      | |- context [match ?v with Some _ => _ | None => _ end] =>
          is_var v; destruct v; sp
      end ].




(** ** Further properties: templates without arguments *)

Lemma plain_specifier (t : str) (k : nat) (ch : str) :
  (forall u, In u t -> In u (lit "lcr|: ")) ->
  codePointStr t k = Some ch ->
  In ch [lit "l"; lit "c"; lit "r"; lit "|"; lit ":"; lit " "].
Proof.
  intros Ht. unfold codePointStr.
  destruct (nth_error t k) as [hi|] eqn:E; [|discriminate].
  apply nth_error_In, Ht in E. cbn [lit list_ascii_of_string map In] in E |- *.
  repeat (destruct E as [<-|E];
          [change (is_high_surrogate _) with false; cbv iota;
           intros [= <-]; tauto|]).
  contradiction.
Qed.

(** X10.  A template of [l], [c], [r], [|], [:] and spaces only is
    always accepted, whatever the validator; [process] then leaves the
    row alignments and the column widths of the array as they were. *)
Theorem plain_template_accepted (t : str) (array : ArrayItem) :
  (forall u, In u t -> In u (lit "lcr|: ")) ->
  snd (process t array) = Ok tt /\
  item_ralign (fst (process t array)) = item_ralign array /\
  columnwidth (arraydef (fst (process t array))) = columnwidth (arraydef array).
Proof.
  intros Ht.
  assert (H : snd (scan t array) = Ok tt /\
              ralign (fst (scan t array)) = item_ralign array /\
              cwidth (fst (scan t array)) = empty_array).
  { unfold scan.
    apply (scanLoop_inv
             (fun st => template st = t /\ ralign st = item_ralign array /\
                        cwidth st = empty_array)
             (fun st' o => o = Ok tt /\ ralign st' = item_ralign array /\
                           cwidth st' = empty_array)).
    - intros st (_ & Hr & Hw) _. auto.
    - intros st ch (Hs & _) _ Hch Ho. exfalso. rewrite Hs in Hch.
      apply own_columnHandler_None in Ho.
      pose proof (plain_specifier _ _ _ Ht Hch) as Hp. cbn [In] in Hp.
      repeat (destruct Hp as [<-|Hp]; [discriminate Ho|]). contradiction.
    - intros st ch handler st' o (Hs & Hr & Hw) _ Hch _ Ho Eh _.
      rewrite Hs in Hch.
      pose proof (plain_specifier _ _ _ Ht Hch) as Hp. cbn [In] in Hp.
      apply own_In in Ho. unfold columnHandler in Ho.
      repeat (destruct Ho as [Ho|Ho]; [injection Ho as <- <-|]);
        try contradiction.
      all: try (exfalso;
                repeat (destruct Hp as [Hp|Hp]; [discriminate Hp|]);
                exact Hp).
      all: revert Eh; unfold_handler; intros [= <- <-]; sp; auto.
    - cbn. auto.
    - cbn. lia. }
  destruct H as (Ho & Hr & Hw). unfold process.
  destruct (scan t array) as [st o]. sp. subst o.
  cbn [fst snd]. split; [reflexivity|]. unfold finalize. rewrite Hw.
  change (0 <? alength empty_array) with false. cbv iota.
  destruct (0 <? alength (clines st)); cbn; auto.
Qed.

(** ** Further properties: the specifiers without effect *)

Lemma codePointStr_Some (t : str) (k : nat) (ch : str) :
  codePointStr t k = Some ch -> k < length t.
Proof.
  unfold codePointStr. destruct (nth_error t k) eqn:E; [|discriminate].
  intros _. apply nth_error_Some. congruence.
Qed.

(** X11.  The specifiers [>], [<], [@], [!] and the space add nothing
    to the array: a turn of the loop on one of them reads its argument
    (the space has none) and leaves the column index, the alignments,
    the widths, the lines and the row alignments as they were, so
    finalization gives the same array item as before the turn; such a
    turn ends normally or with [MissingCloseBrace]. *)
Theorem unused_specifiers (st st' : ColumnState) (ch : str) (o : outcome unit) :
  codePointStr (template st) (i st) = Some ch ->
  In ch [lit ">"; lit "<"; lit "@"; lit "!"; lit " "] ->
  step st = (st', o) ->
  j st' = j st /\
  (forall array, finalize st' array = finalize st array) /\
  (o = Ok tt \/ o = Throw (TexError MissingCloseBrace None)).
Proof.
  intros Hch Hin. rewrite step_eq, Hch. cbn zeta.
  destruct (codePointStr_in_range _ _ (codePointStr_Some _ _ _ Hch))
    as (ch' & Hch' & _ & Hc2).
  rewrite Hch in Hch'. injection Hch' as <-.
  assert (Hfin : forall s : ColumnState,
            calign s = calign st -> cwidth s = cwidth st ->
            clines s = clines st -> ralign s = ralign st ->
            forall array, finalize s array = finalize st array).
  { intros s H1 H2 H3 H4 array. unfold finalize. now rewrite H1, H2, H3, H4. }
  destruct (own ch columnHandler) as [handler|] eqn:Ho.
  2: { exfalso. apply own_columnHandler_None in Ho. cbn [In] in Hin.
       repeat (destruct Hin as [<-|Hin]; [discriminate Ho|]). contradiction. }
  apply own_In in Ho. unfold columnHandler in Ho. cbn [In] in Hin.
  repeat (destruct Ho as [Ho|Ho]; [injection Ho as <- <-|]);
    try contradiction.
  all: try (exfalso;
            repeat (destruct Hin as [Hin|Hin]; [discriminate Hin|]);
            exact Hin).
  all: clear Hin; unfold_handler; split_keep; intros [= <- <-]; sp.
  all: use_props.
  all: split; [reflexivity|]; split; [apply Hfin; reflexivity|].
  all: try (left; reflexivity).
  all: try (exfalso; match goal with
                     | H : OutOfFuel <> OutOfFuel |- _ => now apply H
                     end).
  all: match goal with
       | H : forall e, Throw ?e0 = Throw e -> _ |- _ =>
           destruct (H _ eq_refl) as [->|[_ ?]]; [now right | lia]
       end.
Qed.

End Parser.

(** ** The validator and the specifiers without a width *)

Lemma own_not_wide (md1 md2 : value -> option bool) (ch : str) :
  wide ch = false ->
  own ch (columnHandler md1) = own ch (columnHandler md2).
Proof.
  unfold wide, columnHandler. cbn [own existsb]. intros H.
  repeat (destruct (str_eqb ch _);
          [first [reflexivity | cbn in H; discriminate H]|]).
  reflexivity.
Qed.

Lemma codePointStr_not_wide (t : str) (k : nat) (ch : str) :
  (forall u, In u t -> wide [u] = false) ->
  codePointStr t k = Some ch -> wide ch = false.
Proof.
  intros Ht. unfold codePointStr.
  destruct (nth_error t k) as [hi|] eqn:E; [|discriminate].
  apply nth_error_In, Ht in E.
  assert (H2 : forall lo, wide [hi; lo] = false).
  { intros lo. unfold wide.
    cbn [existsb lit list_ascii_of_string map str_eqb].
    now rewrite !andb_false_r. }
  destruct (is_high_surrogate hi); [|now intros [= <-]].
  destruct (nth_error t (S k)) as [lo|]; [|now intros [= <-]].
  destruct (is_low_surrogate lo); intros [= <-]; auto.
Qed.

Lemma scanLoop_validator (md1 md2 : value -> option bool)
      (fuel : nat) (st : ColumnState) :
  (forall u, In u (template st) -> wide [u] = false) ->
  scanLoop md1 fuel st = scanLoop md2 fuel st.
Proof.
  revert st; induction fuel as [|fuel IH]; intros st Ht;
    rewrite (scanLoop_eq md1), (scanLoop_eq md2);
    destruct (Nat.ltb_spec (i st) (length (template st))) as [Hlt|Hlt];
    try reflexivity.
  assert (Es : step md1 st = step md2 st).
  { rewrite (step_eq md1), (step_eq md2).
    destruct (codePointStr (template st) (i st)) as [ch|] eqn:Hch;
      [|reflexivity].
    cbn zeta.
    now rewrite (own_not_wide md1 md2 ch (codePointStr_not_wide _ _ _ Ht Hch)). }
  rewrite Es. pose proof (step_advances md2 st Hlt) as (Hs & _).
  destruct (step md2 st) as [st' [[]|e|]]; try reflexivity.
  apply IH. cbn [fst] in Hs. now rewrite Hs.
Qed.

(** X12.  The dimension validator is consulted for the specifiers that
    take a width only: on a template with no [p], [m], [b], [w] or [W]
    among its code units, [process] leaves the same array item and ends
    in the same way under any two validators. *)
Theorem validator_for_widths_only
        (md1 md2 : value -> option bool) (t : str) (array : ArrayItem) :
  (forall u, In u t -> wide [u] = false) ->
  process md1 t array = process md2 t array.
Proof.
  intros Ht. unfold process, scan.
  now rewrite (scanLoop_validator md1 md2 (length t) (initState t array) Ht).
Qed.

(** ** The claims on concrete templates *)

(** C1 as the specification has it fails: the two borders between the
    columns of ["|l|c|r|"] are solid, and [columnlines] says so. *)
Lemma framed_three_columns_lines_not_none :
  let r := process sampleDimen (lit "|l|c|r|") fresh_item in
  ~ (snd r = Ok tt /\
     columnalign (arraydef (fst r)) = Some (lit "left center right") /\
     frame (fst r) = [lit "left"; lit "right"] /\
     dashed (fst r) = false /\
     columnlines (arraydef (fst r)) = Some (lit "none none")).
Proof.
  cbv zeta. intros (_ & _ & _ & _ & H). vm_compute in H. discriminate.
Qed.

(** C2 as the specification has it fails: with one width and three
    alignments, ["p{3cm}cc"], [columnwidth] is ["3cm auto"]: it is not
    [cwidth] padded up to the number of alignments, and it has two
    tokens, not three. *)
Lemma columnwidth_not_padded_to_calign :
  let st := fst (scan sampleDimen (lit "p{3cm}cc") fresh_item) in
  let array := fst (process sampleDimen (lit "p{3cm}cc") fresh_item) in
  snd (process sampleDimen (lit "p{3cm}cc") fresh_item) = Ok tt /\
  alength (cwidth st) = 1 /\ alength (calign st) = 3 /\
  columnwidth (arraydef array) = Some (lit "3cm auto") /\
  columnwidth (arraydef array) <>
    Some (join (lit " ")
            (map (fun w => Some (or_else w (lit "auto")))
                 (padded_to (elems (cwidth st)) (alength (calign st))))) /\
  option_map token_count (columnwidth (arraydef array)) <>
    Some (alength (calign st)).
Proof.
  cbv zeta. repeat split; try reflexivity; vm_compute; discriminate.
Qed.

(** The amended C2 on ["p{3cm}cc"]: one width, three alignments, two
    tokens. *)
Lemma columnwidth_one_auto_witness :
  let t := lit "p{3cm}cc" in
  let st := fst (scan sampleDimen t fresh_item) in
  scan sampleDimen t fresh_item = (st, Ok tt) /\
  0 < alength (cwidth st) /\
  columnwidth (arraydef (fst (process sampleDimen t fresh_item))) =
    Some (lit "3cm auto") /\
  Forall (fun w => ~ In SPACE (to_s w)) (elems (cwidth st)) /\
  option_map token_count
    (columnwidth (arraydef (fst (process sampleDimen t fresh_item)))) = Some 2.
Proof.
  cbv zeta.
  assert (H1 : scan sampleDimen (lit "p{3cm}cc") fresh_item =
               (fst (scan sampleDimen (lit "p{3cm}cc") fresh_item), Ok tt))
    by (vm_compute; reflexivity).
  assert (H2 : 0 < alength
                 (cwidth (fst (scan sampleDimen (lit "p{3cm}cc") fresh_item))))
    by (vm_compute; constructor).
  assert (H3 : Forall (fun w => ~ In SPACE (to_s w))
                 (elems (cwidth (fst (scan sampleDimen (lit "p{3cm}cc") fresh_item))))).
  { vm_compute. constructor; [|constructor].
    intros [H|[H|[H|[]]]]; discriminate H. }
  split; [exact H1|]. split; [exact H2|].
  pose proof (columnwidth_one_auto sampleDimen _ _ _ H1 H2) as (A & _ & _ & B).
  split; [vm_compute in A |- *; exact A|]. split; [exact H3|].
  specialize (B H3). vm_compute in B |- *. exact B.
Defined.

(** The side condition of the amended C2: under a validator that
    accepts a width with a space in it, the two entries of
    [columnwidth] on ["p{3 cm}c"] are three tokens. *)
Example columnwidth_width_with_space :
  let array := fst (process (fun _ => Some true) (lit "p{3 cm}c") fresh_item) in
  columnwidth (arraydef array) = Some (lit "3 cm auto") /\
  option_map token_count (columnwidth (arraydef array)) = Some 3.
Proof. cbv zeta. split; vm_compute; reflexivity. Qed.

(** C4 on the two brace arguments of the specification, read from the
    start of the template. *)
Lemma getBraces_reads_argument_witness :
  let st1 := initState (lit "{a{b}c}") fresh_item in
  let st2 := initState (lit "{a\}b}") fresh_item in
  (skipn (i st1) (template st1) =
     repeat SPACE 0 ++ N_of_ascii "{" :: lit "a{b}c}" /\
   N_of_ascii "{" <> SPACE /\
   getBraces st1 = (set_i st1 7, Ok (Some (lit "a{b}c")))) /\
  (skipn (i st2) (template st2) =
     repeat SPACE 0 ++ N_of_ascii "{" :: lit "a\}b}" /\
   N_of_ascii "{" <> SPACE /\
   getBraces st2 = (set_i st2 6, Ok (Some (lit "a\}b")))).
Proof.
  cbv zeta.
  assert (H : N_of_ascii "{" <> SPACE) by discriminate.
  assert (H1 : skipn (i (initState (lit "{a{b}c}") fresh_item))
                 (template (initState (lit "{a{b}c}") fresh_item)) =
               repeat SPACE 0 ++ N_of_ascii "{" :: lit "a{b}c}")
    by (vm_compute; reflexivity).
  assert (H2 : skipn (i (initState (lit "{a\}b}") fresh_item))
                 (template (initState (lit "{a\}b}") fresh_item)) =
               repeat SPACE 0 ++ N_of_ascii "{" :: lit "a\}b}")
    by (vm_compute; reflexivity).
  split; (split; [assumption|]; split; [exact H|]).
  - pose proof (getBraces_reads_argument _ 0 _ _ H1 H) as G.
    vm_compute in G |- *. exact G.
  - pose proof (getBraces_reads_argument _ 0 _ _ H2 H) as G.
    vm_compute in G |- *. exact G.
Defined.

(** C5 on the first turn of the loop on ["p{3cm}c"]. *)
Lemma boxed_column_witness :
  let st := initState (lit "p{3cm}c") fresh_item in
  let st1 := set_i (set_c st (lit "p")) 6 in
  codePointStr (template st) (i st) = Some (lit "p") /\
  In (lit "p", VTOP) [(lit "p", VTOP); (lit "m", VCENTER); (lit "b", VBOX)] /\
  getBraces (set_i (set_c st (lit "p")) (i st + 1)) = (st1, Ok (Some (lit "3cm"))) /\
  sampleDimen (Some (lit "3cm")) = Some true /\
  exists st2,
    step sampleDimen st = (st2, Ok tt) /\
    aget (ralign st2) (j st) = Some (VTOP, Some (lit "3cm"), Some (lit "left")) /\
    aget (calign st2) (j st) = Some (lit "left") /\
    aget (cwidth st2) (j st) = Some (lit "3cm") /\
    j st2 = (j st + 1)%Z /\ i st2 = i st1.
Proof.
  cbv zeta.
  assert (H1 : codePointStr (template (initState (lit "p{3cm}c") fresh_item))
                 (i (initState (lit "p{3cm}c") fresh_item)) = Some (lit "p"))
    by (vm_compute; reflexivity).
  assert (H2 : In (lit "p", VTOP)
                 [(lit "p", VTOP); (lit "m", VCENTER); (lit "b", VBOX)])
    by (left; reflexivity).
  assert (H3 : getBraces
                 (set_i (set_c (initState (lit "p{3cm}c") fresh_item) (lit "p"))
                    (i (initState (lit "p{3cm}c") fresh_item) + 1)) =
               (set_i (set_c (initState (lit "p{3cm}c") fresh_item) (lit "p")) 6,
                Ok (Some (lit "3cm"))))
    by (vm_compute; reflexivity).
  assert (H4 : sampleDimen (Some (lit "3cm")) = Some true)
    by (vm_compute; reflexivity).
  split; [exact H1|]. split; [exact H2|].
  split; [exact H3|]. split; [exact H4|].
  exact (proj1 (proj1 (boxed_column sampleDimen) _ _ _ _ _ H1 H2 H3) H4).
Defined.

(** C6 on ["lcrl"]. *)
Lemma simple_columns_columnalign_witness :
  Forall (fun u => In u (lit "lcr")) (lit "lcrl") /\
  snd (process sampleDimen (lit "lcrl") fresh_item) = Ok tt /\
  columnalign (arraydef (fst (process sampleDimen (lit "lcrl") fresh_item))) =
    Some (lit "left center right left").
Proof.
  assert (H : Forall (fun u => In u (lit "lcr")) (lit "lcrl")).
  { repeat constructor; cbn; tauto. }
  split; [exact H|].
  pose proof (simple_columns_columnalign sampleDimen (lit "lcrl") fresh_item H) as G.
  vm_compute in G |- *. exact G.
Defined.

(** C7 on ["x"], and on ["lx"], where the loop comes to [x] after a
    column. *)
Lemma BadColumnCharacter_unregistered_witness :
  let st := initState (lit "x") fresh_item in
  (i st < length (template st) /\
   codePointStr (template st) (i st) = Some (lit "x") /\
   own (lit "x") (columnHandler sampleDimen) = None /\
   scanLoop sampleDimen 1 st =
     (set_i (set_c st (lit "x")) (i st + length (lit "x")),
      Throw (TexError BadColumnCharacter (Some (lit "x"))))) /\
  (codePointStr (lit "x") 0 = Some (lit "x") /\
   process sampleDimen (lit "x") fresh_item =
     (fresh_item, Throw (TexError BadColumnCharacter (Some (lit "x"))))) /\
  (In (lit "x")
      (dispatched sampleDimen (length (lit "lx")) (initState (lit "lx") fresh_item)) /\
   snd (process sampleDimen (lit "lx") fresh_item) =
     Throw (TexError BadColumnCharacter (Some (lit "x"))) /\
   arraydef (fst (process sampleDimen (lit "lx") fresh_item)) =
     arraydef fresh_item).
Proof.
  cbv zeta.
  assert (H1 : i (initState (lit "x") fresh_item) <
               length (template (initState (lit "x") fresh_item)))
    by (vm_compute; constructor).
  assert (H2 : codePointStr (template (initState (lit "x") fresh_item))
                 (i (initState (lit "x") fresh_item)) = Some (lit "x"))
    by (vm_compute; reflexivity).
  assert (H3 : own (lit "x") (columnHandler sampleDimen) = None)
    by (vm_compute; reflexivity).
  assert (H4 : codePointStr (lit "x") 0 = Some (lit "x"))
    by (vm_compute; reflexivity).
  assert (H5 : In (lit "x")
                 (dispatched sampleDimen (length (lit "lx"))
                    (initState (lit "lx") fresh_item)))
    by (vm_compute; right; left; reflexivity).
  split; [|split].
  - split; [exact H1|]. split; [exact H2|]. split; [exact H3|].
    exact (proj1 (BadColumnCharacter_unregistered sampleDimen) 0 _ _ H1 H2 H3).
  - split; [exact H4|].
    exact (proj1 (proj2 (proj2 (proj2 (BadColumnCharacter_unregistered sampleDimen))))
             (lit "x") fresh_item _ H4 H3).
  - split; [exact H5|].
    pose proof (proj2 (proj2 (proj2 (proj2 (BadColumnCharacter_unregistered sampleDimen))))
                  (lit "lx") fresh_item _ H5 H3) as (A & B & _).
    split; [exact A | exact B].
Defined.

(** C8 on the handlers of [l] and of the border [|]. *)
Lemma column_index_discipline_witness :
  let st := initState (lit "l|") fresh_item in
  own (lit "l") (columnHandler sampleDimen) = Some (alignColumn (lit "left")) /\
  j (fst (alignColumn (lit "left") st)) = 1%Z /\
  own (lit "|") (columnHandler sampleDimen) = Some (lineColumn (lit "solid")) /\
  annotating (lit "|") = true /\
  j (fst (lineColumn (lit "solid") st)) = j st.
Proof.
  cbv zeta.
  assert (H1 : own (lit "l") (columnHandler sampleDimen) =
               Some (alignColumn (lit "left"))) by reflexivity.
  assert (H2 : own (lit "|") (columnHandler sampleDimen) =
               Some (lineColumn (lit "solid"))) by reflexivity.
  assert (H3 : annotating (lit "|") = true) by reflexivity.
  split; [exact H1|]. split.
  { pose proof (proj1 (proj1 (column_index_discipline sampleDimen) _ _
                         (initState (lit "l|") fresh_item) H1)) as G.
    vm_compute in G |- *. exact G. }
  split; [exact H2|]. split; [exact H3|].
  exact (proj1 (proj2 (proj1 (column_index_discipline sampleDimen) _ _
                         (initState (lit "l|") fresh_item) H2)) H3).
Defined.

(** C9 on the first turn of the loop on ["p{3cm}c"]: the cursor moves
    forward. *)
Lemma process_terminates_witness :
  let st := initState (lit "p{3cm}c") fresh_item in
  i st < length (template st) /\
  template (fst (step sampleDimen st)) = template st /\
  i st < i (fst (step sampleDimen st)).
Proof.
  cbv zeta.
  assert (H1 : i (initState (lit "p{3cm}c") fresh_item) <
               length (template (initState (lit "p{3cm}c") fresh_item)))
    by (vm_compute; repeat constructor).
  split; [exact H1|].
  exact (proj1 (proj2 (proj2 (process_terminates sampleDimen))) _ H1).
Defined.

(** C10 on ["<{x}l"], when the loop has just read [<]. *)
Lemma cend_underflow_harmless_witness :
  let st := set_i (set_c (initState (lit "<{x}l") fresh_item) (lit "<")) 1 in
  let st1 := set_i st 4 in
  let handler :=
    match own (lit "<") (columnHandler sampleDimen) with
    | Some h => h
    | None => ret tt
    end in
  own (lit "<") (columnHandler sampleDimen) = Some handler /\
  j st = 0%Z /\
  getBraces st = (st1, Ok (Some (lit "x"))) /\
  handler st = (set_cend st1 (aset (cend st1) (-1) (Some (lit "x"))), Ok tt) /\
  aget (aset (cend st1) (-1) (Some (lit "x"))) (-1) = Some (lit "x").
Proof.
  cbv zeta.
  assert (H1 : own (lit "<") (columnHandler sampleDimen) =
               Some match own (lit "<") (columnHandler sampleDimen) with
                    | Some h => h
                    | None => ret tt
                    end) by reflexivity.
  assert (H2 : j (set_i (set_c (initState (lit "<{x}l") fresh_item) (lit "<")) 1)
               = 0%Z) by reflexivity.
  assert (H3 : getBraces
                 (set_i (set_c (initState (lit "<{x}l") fresh_item) (lit "<")) 1) =
               (set_i (set_i (set_c (initState (lit "<{x}l") fresh_item)
                                (lit "<")) 1) 4,
                Ok (Some (lit "x"))))
    by (vm_compute; reflexivity).
  split; [exact H1|]. split; [exact H2|]. split; [exact H3|].
  pose proof (cend_underflow_harmless sampleDimen _ _ _ _ H1 H2 H3) as H.
  cbv zeta in H. split; [exact (proj1 H) | exact (proj1 (proj2 H))].
Defined.

(** ** The further properties on concrete templates *)

(** X1 on ["p{3cm}c|r"]. *)
Lemma columnalign_one_per_column_witness :
  let t := lit "p{3cm}c|r" in
  snd (process sampleDimen t fresh_item) = Ok tt /\
  exists l,
    columnalign (arraydef (fst (process sampleDimen t fresh_item))) =
      Some (join (lit " ") (map Some l)) /\
    Forall (fun a => In a alignments) l /\
    length l = columns sampleDimen t fresh_item.
Proof.
  cbv zeta.
  assert (H1 : snd (process sampleDimen (lit "p{3cm}c|r") fresh_item) = Ok tt)
    by (vm_compute; reflexivity).
  split; [exact H1|].
  exact (columnalign_one_per_column sampleDimen _ _ H1).
Defined.

(** X2 on ["cp{3cm}cc"]: the last column with a width is the second of
    four, so [columnwidth] gets three entries. *)
Lemma columnwidth_entries_witness :
  let t := lit "cp{3cm}cc" in
  snd (process sampleDimen t fresh_item) = Ok tt /\
  width_span (dispatched sampleDimen (length t) (initState t fresh_item)) = 2 /\
  columns sampleDimen t fresh_item = 4 /\
  columnwidth (arraydef (fst (process sampleDimen t fresh_item))) =
    Some (lit "auto 3cm auto") /\
  exists l,
    columnwidth (arraydef (fst (process sampleDimen t fresh_item))) =
      Some (join (lit " ") (map Some l)) /\
    length l = 3 /\
    Forall (fun x => x = lit "auto" \/
                     (x <> [] /\ sampleDimen (Some x) = Some true)) l.
Proof.
  cbv zeta.
  assert (H1 : snd (process sampleDimen (lit "cp{3cm}cc") fresh_item) = Ok tt)
    by (vm_compute; reflexivity).
  assert (H2 : width_span
                 (dispatched sampleDimen (length (lit "cp{3cm}cc"))
                    (initState (lit "cp{3cm}cc") fresh_item)) = 2)
    by (vm_compute; reflexivity).
  assert (H3 : columns sampleDimen (lit "cp{3cm}cc") fresh_item = 4)
    by (vm_compute; reflexivity).
  assert (H4 : columnwidth
                 (arraydef (fst (process sampleDimen (lit "cp{3cm}cc") fresh_item))) =
               Some (lit "auto 3cm auto"))
    by (vm_compute; reflexivity).
  split; [exact H1|]. split; [exact H2|]. split; [exact H3|].
  split; [exact H4|].
  pose proof (columnwidth_entries sampleDimen _ _ H1) as H.
  cbv zeta in H. rewrite H2, H3 in H. exact H.
Defined.

(** X3 on ["|l:c|"]: two columns, a border before the first, a dashed
    one between them and a border after the last. *)
Lemma columnlines_and_frame_witness :
  let t := lit "|l:c|" in
  let r := fst (process sampleDimen t fresh_item) in
  let ds := dispatched sampleDimen (length t) (initState t fresh_item) in
  snd (process sampleDimen t fresh_item) = Ok tt /\
  columns sampleDimen t fresh_item = 2 /\
  line_span ds = 3 /\
  left_line None ds = Some (lit "solid") /\
  columnlines (arraydef r) = Some (lit "dashed") /\
  (exists l,
      columnlines (arraydef r) = Some (join (lit " ") (map Some l)) /\
      Forall (fun s => In s line_styles) l /\
      length l = 1) /\
  frame r = frame fresh_item ++ [lit "left"] ++ [lit "right"] /\
  dashed r = false.
Proof.
  cbv zeta.
  assert (H1 : snd (process sampleDimen (lit "|l:c|") fresh_item) = Ok tt)
    by (vm_compute; reflexivity).
  assert (H2 : columns sampleDimen (lit "|l:c|") fresh_item = 2)
    by (vm_compute; reflexivity).
  assert (H3 : line_span
                 (dispatched sampleDimen (length (lit "|l:c|"))
                    (initState (lit "|l:c|") fresh_item)) = 3)
    by (vm_compute; reflexivity).
  assert (H4 : left_line None
                 (dispatched sampleDimen (length (lit "|l:c|"))
                    (initState (lit "|l:c|") fresh_item)) = Some (lit "solid"))
    by (vm_compute; reflexivity).
  assert (H5 : columnlines
                 (arraydef (fst (process sampleDimen (lit "|l:c|") fresh_item))) =
               Some (lit "dashed"))
    by (vm_compute; reflexivity).
  split; [exact H1|]. split; [exact H2|]. split; [exact H3|].
  split; [exact H4|]. split; [exact H5|].
  pose proof (columnlines_and_frame sampleDimen _ _ H1) as H.
  cbv zeta in H. rewrite H2, H3, H4 in H. exact H.
Defined.

(** X4 on ["p{3cm}c"]: the one entry put in [ralign], at the key 0. *)
Lemma ralign_entries_validated_witness :
  let r := item_ralign (fst (process sampleDimen (lit "p{3cm}c") fresh_item)) in
  writes r = writes (item_ralign fresh_item) ++ [0%Z] /\
  exists cls dim a,
    aget r 0 = Some (cls, dim, Some a) /\
    sampleDimen dim = Some true /\ In a alignments.
Proof.
  cbv zeta.
  assert (H1 : writes (item_ralign
                         (fst (process sampleDimen (lit "p{3cm}c") fresh_item))) =
               writes (item_ralign fresh_item) ++ [0%Z])
    by (vm_compute; reflexivity).
  split; [exact H1|].
  destruct (ralign_entries_validated sampleDimen (lit "p{3cm}c") fresh_item)
    as (w & Hw & H).
  apply H. rewrite H1 in Hw. apply app_inv_head in Hw. rewrite <- Hw.
  left. reflexivity.
Defined.

(** X5 on the first turn of the loop on ["w{C}{3cm}"]. *)
Lemma aligned_column_witness :
  let st := initState (lit "w{C}{3cm}") fresh_item in
  let st1 := set_i (set_c st (lit "w")) 4 in
  let st2 := set_i (set_c st (lit "w")) 9 in
  codePointStr (template st) (i st) = Some (lit "w") /\
  getBraces (set_i (set_c st (lit "w")) (i st + 1)) = (st1, Ok (Some (lit "C"))) /\
  getBraces st1 = (st2, Ok (Some (lit "3cm"))) /\
  sampleDimen (Some (lit "3cm")) = Some true /\
  exists st3,
    step sampleDimen st = (st3, Ok tt) /\
    aget (ralign st3) (j st) =
      Some (VTOP, Some (lit "3cm"), Some (column_alignment (lit "C"))) /\
    aget (calign st3) (j st) = Some (column_alignment (lit "C")) /\
    aget (cwidth st3) (j st) = Some (lit "3cm") /\
    j st3 = (j st + 1)%Z /\ i st3 = i st2.
Proof.
  cbv zeta.
  assert (H1 : codePointStr (template (initState (lit "w{C}{3cm}") fresh_item))
                 (i (initState (lit "w{C}{3cm}") fresh_item)) = Some (lit "w"))
    by (vm_compute; reflexivity).
  assert (H2 : lit "w" = lit "w" \/ lit "w" = lit "W") by (left; reflexivity).
  assert (H3 : getBraces
                 (set_i (set_c (initState (lit "w{C}{3cm}") fresh_item) (lit "w"))
                    (i (initState (lit "w{C}{3cm}") fresh_item) + 1)) =
               (set_i (set_c (initState (lit "w{C}{3cm}") fresh_item) (lit "w")) 4,
                Ok (Some (lit "C"))))
    by (vm_compute; reflexivity).
  assert (H4 : getBraces
                 (set_i (set_c (initState (lit "w{C}{3cm}") fresh_item) (lit "w")) 4) =
               (set_i (set_c (initState (lit "w{C}{3cm}") fresh_item) (lit "w")) 9,
                Ok (Some (lit "3cm"))))
    by (vm_compute; reflexivity).
  assert (H5 : sampleDimen (Some (lit "3cm")) = Some true)
    by (vm_compute; reflexivity).
  split; [exact H1|]. split; [exact H3|]. split; [exact H4|].
  split; [exact H5|].
  exact (proj1 (proj1 (aligned_column sampleDimen) _ _ _ _ _ _ H1 H2 H3 H4) H5).
Defined.

(** X6 on [" {a{b}c}d"]. *)
Lemma getBraces_round_trip_witness :
  let st := initState (lit " {a{b}c}d") fresh_item in
  skipn (i st) (template st) =
    repeat SPACE 1 ++ N_of_ascii "{" :: lit "a{b}c" ++ N_of_ascii "}" :: lit "d" /\
  balanced (lit "a{b}c") /\
  getBraces st = (set_i st (i st + 1 + length (lit "a{b}c") + 2),
                  Ok (Some (lit "a{b}c"))).
Proof.
  cbv zeta.
  assert (H1 : skipn (i (initState (lit " {a{b}c}d") fresh_item))
                 (template (initState (lit " {a{b}c}d") fresh_item)) =
               repeat SPACE 1 ++
               N_of_ascii "{" :: lit "a{b}c" ++ N_of_ascii "}" :: lit "d")
    by (vm_compute; reflexivity).
  assert (H2 : balanced (lit "a{b}c")) by (vm_compute; reflexivity).
  split; [exact H1|]. split; [exact H2|].
  exact (getBraces_round_trip _ 1 _ _ H1 H2).
Defined.

(** X7 on [" {a{b}c}d"]. *)
Lemma getBraces_argument_balanced_witness :
  let st := initState (lit " {a{b}c}d") fresh_item in
  skipn (i st) (template st) =
    repeat SPACE 1 ++ N_of_ascii "{" :: lit "a{b}c}d" /\
  getBraces st = (set_i st 8, Ok (Some (lit "a{b}c"))) /\
  balanced (lit "a{b}c") /\
  exists rest,
    lit "a{b}c}d" = lit "a{b}c" ++ N_of_ascii "}" :: rest /\
    i (set_i st 8) = i st + 1 + length (lit "a{b}c") + 2.
Proof.
  cbv zeta.
  assert (H1 : skipn (i (initState (lit " {a{b}c}d") fresh_item))
                 (template (initState (lit " {a{b}c}d") fresh_item)) =
               repeat SPACE 1 ++ N_of_ascii "{" :: lit "a{b}c}d")
    by (vm_compute; reflexivity).
  assert (H2 : getBraces (initState (lit " {a{b}c}d") fresh_item) =
               (set_i (initState (lit " {a{b}c}d") fresh_item) 8,
                Ok (Some (lit "a{b}c"))))
    by (vm_compute; reflexivity).
  split; [exact H1|]. split; [exact H2|].
  exact (getBraces_argument_balanced _ _ 1 _ _ H1 H2).
Defined.

(** X8 after the [w] of ["w  "]. *)
Lemma getBraces_undefined_iff_witness :
  let st := set_i (initState (lit "w  ") fresh_item) 1 in
  i st <= length (template st) /\
  (Forall (fun u => u = SPACE) (skipn (i st) (template st)) <->
   exists st', getBraces st = (st', Ok None)) /\
  (forall st', getBraces st = (st', Ok None) ->
     st' = set_i st (S (length (template st)))).
Proof.
  cbv zeta.
  assert (H1 : i (set_i (initState (lit "w  ") fresh_item) 1) <=
               length (template (set_i (initState (lit "w  ") fresh_item) 1)))
    by (simpl; lia).
  split; [exact H1|].
  exact (getBraces_undefined_iff _ H1).
Defined.


(** X10 on ["|l:c r|"]. *)
Lemma plain_template_accepted_witness :
  let t := lit "|l:c r|" in
  (forall u, In u t -> In u (lit "lcr|: ")) /\
  snd (process sampleDimen t fresh_item) = Ok tt /\
  item_ralign (fst (process sampleDimen t fresh_item)) = item_ralign fresh_item /\
  columnwidth (arraydef (fst (process sampleDimen t fresh_item))) =
    columnwidth (arraydef fresh_item).
Proof.
  cbv zeta.
  assert (H1 : forall u, In u (lit "|l:c r|") -> In u (lit "lcr|: ")).
  { intros u Hu. simpl in Hu |- *. tauto. }
  split; [exact H1|].
  exact (plain_template_accepted sampleDimen _ fresh_item H1).
Defined.

(** X11 on the first turn of the loop on ["@{x}l"]. *)
Lemma unused_specifiers_witness :
  let st := initState (lit "@{x}l") fresh_item in
  let st' := set_i (set_c st (lit "@")) 4 in
  codePointStr (template st) (i st) = Some (lit "@") /\
  step sampleDimen st = (st', Ok tt) /\
  j st' = j st /\
  (forall array, finalize st' array = finalize st array) /\
  (Ok tt = Ok tt \/ Ok tt = Throw (TexError MissingCloseBrace None)).
Proof.
  cbv zeta.
  assert (H1 : codePointStr (template (initState (lit "@{x}l") fresh_item))
                 (i (initState (lit "@{x}l") fresh_item)) = Some (lit "@"))
    by (vm_compute; reflexivity).
  assert (H2 : In (lit "@") [lit ">"; lit "<"; lit "@"; lit "!"; lit " "])
    by (simpl; tauto).
  assert (H3 : step sampleDimen (initState (lit "@{x}l") fresh_item) =
               (set_i (set_c (initState (lit "@{x}l") fresh_item) (lit "@")) 4,
                Ok tt))
    by (vm_compute; reflexivity).
  split; [exact H1|]. split; [exact H3|].
  exact (unused_specifiers sampleDimen _ _ _ _ H1 H2 H3).
Defined.

(** X12 on ["l|c"], under the sample validator and under one that
    always raises. *)
Lemma validator_for_widths_only_witness :
  let t := lit "l|c" in
  (forall u, In u t -> wide [u] = false) /\
  process sampleDimen t fresh_item = process (fun _ => None) t fresh_item.
Proof.
  cbv zeta.
  assert (H1 : forall u, In u (lit "l|c") -> wide [u] = false).
  { intros u Hu. simpl in Hu.
    destruct Hu as [<- | [<- | [<- | []]]]; reflexivity. }
  split; [exact H1|].
  exact (validator_for_widths_only sampleDimen (fun _ => None) _ fresh_item H1).
Defined.

(** ** More templates of the specification *)

Example process_boxed_then_simple :
  let array := fst (process sampleDimen (lit "p{3cm}c") fresh_item) in
  snd (process sampleDimen (lit "p{3cm}c") fresh_item) = Ok tt /\
  aget (item_ralign array) 0 = Some (VTOP, Some (lit "3cm"), Some (lit "left")) /\
  columnalign (arraydef array) = Some (lit "left center") /\
  columnwidth (arraydef array) = Some (lit "3cm auto").
Proof. cbv zeta. repeat split; vm_compute; reflexivity. Qed.

Example process_bad_dimension :
  snd (process sampleDimen (lit "p{nope}") fresh_item) =
  Throw (TexError MissingColumnDimOrUnits (Some (lit "p"))).
Proof. vm_compute. reflexivity. Qed.

Example process_unknown_specifier :
  process sampleDimen (lit "x") fresh_item =
  (fresh_item, Throw (TexError BadColumnCharacter (Some (lit "x")))).
Proof. vm_compute. reflexivity. Qed.

Example process_dashed_between :
  let array := fst (process sampleDimen (lit "l:c") fresh_item) in
  snd (process sampleDimen (lit "l:c") fresh_item) = Ok tt /\
  columnlines (arraydef array) = Some (lit "dashed") /\
  frame array = [].
Proof. cbv zeta. repeat split; vm_compute; reflexivity. Qed.

Example process_ignored_decoration_at_end :
  snd (process sampleDimen (lit "@") fresh_item) = Ok tt.
Proof. vm_compute. reflexivity. Qed.

Example process_cend_underflow :
  process sampleDimen (lit "<{x}l:c") fresh_item =
  process sampleDimen (lit "l:c") fresh_item.
Proof. vm_compute. reflexivity. Qed.

Example process_missing_argument :
  snd (process sampleDimen (lit "p") fresh_item) = Throw ValidatorError /\
  snd (process sampleDimen (lit "w") fresh_item) = Throw TypeError.
Proof. split; vm_compute; reflexivity. Qed.

Example getBraces_after_spaces :
  let st := initState (lit "  {a} b") fresh_item in
  getBraces st = (set_i st 5, Ok (Some (lit "a"))).
Proof. vm_compute. reflexivity. Qed.

Example getBraces_single_token :
  let st := initState (lit " ab") fresh_item in
  getBraces st = (set_i st 2, Ok (Some (lit "a"))).
Proof. vm_compute. reflexivity. Qed.

Example getBraces_unclosed :
  let st := initState (lit "{a{b}") fresh_item in
  snd (getBraces st) = Throw (TexError MissingCloseBrace None).
Proof. vm_compute. reflexivity. Qed.

Example getBraces_trailing_backslash :
  let st := initState (lit "{a\") fresh_item in
  getBraces st = (set_i st 4, Throw (TexError MissingCloseBrace None)).
Proof. vm_compute. reflexivity. Qed.

(** The spans on lists of specifiers. *)
Example width_span_second_of_four :
  width_span [lit "c"; lit "p"; lit "c"; lit "c"] = 2 /\
  width_span [lit "l"; lit "|"; lit "c"] = 0.
Proof. split; reflexivity. Qed.

Example line_span_framed :
  line_span [lit "|"; lit "l"; lit "|"; lit "c"; lit "|"; lit "r"; lit "|"] = 4 /\
  line_span [lit "l"; lit "|"; lit "c"; lit "r"] = 2 /\
  line_span [lit "l"; lit "c"] = 0.
Proof. repeat split; reflexivity. Qed.

Example left_line_last_before_first_column :
  left_line None [lit "|"; lit ":"; lit "l"; lit "|"] = Some (lit "dashed") /\
  left_line None [lit "l"; lit "|"] = None.
Proof. split; reflexivity. Qed.
